(** * multiRemote: static setup, IR+ and Roku drivers, and the routing core

    A shallow embedding of [setup.py], [driver_irplus.py] and
    [driver_roku.py], followed by the routing and arbitration engine as the
    specification describes it, and the properties proved about them.

    Conventions of the embedding:
    - a Python [dict] used as a map is a [gmap]; a structure whose order is
      significant (a route, a command sequence, a list of candidate routes)
      is a [list];
    - a method is a function in the monad [Py.M]: it extends the trace of
      observable events (HTTP requests, printed lines, sleeps) and either
      returns a value or raises a Python exception;
    - [requests.get] and [requests.post] always deliver a response; what
      the device answers is given by a [Py.network], which may depend on
      everything that happened before;
    - [logging] calls have no effect on the device or on the driver and are
      left out of the trace. *)

From Stdlib Require Import ZArith String Ascii.
From stdpp Require Import gmap strings list fin_maps pretty.

Local Open Scope string_scope.
Local Open Scope list_scope.
Local Open Scope Z_scope.

(* ===================================================================== *)
(** * Part I: definitions *)
(* ===================================================================== *)

(** ** The fragment of the Python runtime the drivers rely on *)
Module Py.

(** Exceptions the modelled code can raise. *)
Inductive exn :=
| NameError (name : string)
| KeyError (key : string)
| ValueError (what : string)
| AttributeError (what : string)
| ParseError.

Inductive outcome (A : Type) :=
| Returned (a : A)
| Raised (e : exn).
Arguments Returned {A} a.
Arguments Raised {A} e.

(** What [xml.etree.ElementTree] exposes of a parsed reply: the root
    element and its direct children, each with tag, attributes, text. *)
Record element := Element {
  tag : string;
  attrib : gmap string string;
  text : option string
}.

Record document := Document {
  root : element;
  branches : list element
}.

Inductive request :=
| Get (url : string)
| Post (url : string).

Inductive body :=
| Json
| Xml (doc : document)
| Garbled.

Record response := Response {
  status_code : Z;
  content : body
}.

Inductive event :=
| Http (rq : request)
| Print (line : string)
| Sleep (seconds : Z).

(** The device side: the reply to a request, given the events so far. *)
Definition network := list event -> request -> response.

(** Computations of a method of an object of type [S]: the object and
    the trace go in; the object as the method left it, the extended
    trace and the outcome come out. An exception keeps the mutations
    made before it was raised. *)
Definition M (S A : Type) : Type :=
  S -> list event -> S * list event * outcome A.

Definition ret {S A} (a : A) : M S A := fun s t => (s, t, Returned a).

Definition bind {S A B} (c : M S A) (k : A -> M S B) : M S B :=
  fun s t =>
    match c s t with
    | (s', t', Returned a) => k a s' t'
    | (s', t', Raised e) => (s', t', Raised e)
    end.

Definition raise {S A} (e : exn) : M S A := fun s t => (s, t, Raised e).

Definition get {S} : M S S := fun s t => (s, t, Returned s).

Definition modify {S} (f : S -> S) : M S unit := fun s t => (f s, t, Returned tt).

Definition emit {S} (ev : event) : M S unit :=
  fun s t => (s, t ++ [ev], Returned tt).

Definition send {S} (net : network) (rq : request) : M S response :=
  fun s t => (s, t ++ [Http rq], Returned (net t rq)).

(** A computation that makes no request, prints nothing and does not
    sleep: the trace comes out as it went in. *)
Definition silent {S A} (c : M S A) : Prop :=
  ∀ s t, ∃ s' o, c s t = (s', t, o).

(** [d[k]] on a dict with string keys. *)
Definition getitem {S V} (d : gmap string V) (k : string) : M S V :=
  match d !! k with
  | Some v => ret v
  | None => raise (KeyError k)
  end.

(** [r.json()]. *)
Definition json {S} (r : response) : M S unit :=
  match content r with
  | Json => ret tt
  | _ => raise (ValueError "No JSON object could be decoded")
  end.

(** [ElementTree.fromstring(r.content)]. *)
Definition fromstring {S} (r : response) : M S document :=
  match content r with
  | Xml doc => ret doc
  | _ => raise ParseError
  end.

(** [k in d]. *)
Definition contains {V} (d : gmap string V) (k : string) : bool :=
  bool_decide (is_Some (d !! k)).

(** Values bound at module level: only modules and classes. *)
Inductive object :=
| ModuleObj (name : string)
| ClassObj (name : string).

Definition object_name (o : object) : string :=
  match o with ModuleObj n => n | ClassObj n => n end.

(** Evaluation of a bare name that is no local variable and no builtin:
    the module's globals are searched, and a miss raises [NameError]. *)
Definition global {S} (globals : list (string * object)) (name : string) : M S object :=
  match (list_to_map globals : gmap string object) !! name with
  | Some o => ret o
  | None => raise (NameError name)
  end.

(** Dynamically typed values compared with [==] in the drivers. *)
Inductive value :=
| VStr (s : string)
| VInt (z : Z).

(** [==] between a string and an integer is always false. *)
Definition eq (a b : value) : bool :=
  match a, b with
  | VStr s1, VStr s2 => bool_decide (s1 = s2)
  | VInt z1, VInt z2 => bool_decide (z1 = z2)
  | _, _ => false
  end.

(** *** String methods *)

Definition is_digit (c : ascii) : bool :=
  (48 <=? Z.of_nat (nat_of_ascii c)) && (Z.of_nat (nat_of_ascii c) <=? 57).

Fixpoint all_digits (s : string) : bool :=
  match s with
  | EmptyString => true
  | String c s' => is_digit c && all_digits s'
  end.

(** [s.isdigit()]: at least one character, and digits only. *)
Definition isdigit (s : string) : bool :=
  match s with
  | EmptyString => false
  | String _ _ => all_digits s
  end.

Fixpoint int_digits (acc : Z) (s : string) : Z :=
  match s with
  | EmptyString => acc
  | String c s' => int_digits (10 * acc + (Z.of_nat (nat_of_ascii c) - 48)) s'
  end.

(** [int(s)] for a string of decimal digits. *)
Definition int_of_digits (s : string) : Z := int_digits 0 s.

(** [s.split(sep)] for a one-character separator. *)
Fixpoint split (sep : ascii) (s : string) : list string :=
  match s with
  | EmptyString => [EmptyString]
  | String c s' =>
      if Ascii.eqb c sep then EmptyString :: split sep s'
      else match split sep s' with
           | [] => [String c EmptyString]
           | hd :: tl => String c hd :: tl
           end
  end.

Definition lower_char (c : ascii) : ascii :=
  let n := nat_of_ascii c in
  if (65 <=? Z.of_nat n) && (Z.of_nat n <=? 90) then ascii_of_nat (n + 32)%nat else c.

(** [s.lower()] on ASCII text. *)
Fixpoint lower (s : string) : string :=
  match s with
  | EmptyString => EmptyString
  | String c s' => String (lower_char c) (lower s')
  end.

(** [s.find(sub)]: the lowest index of [sub] in [s], or -1. *)
Definition find (s sub : string) : Z :=
  match String.index 0 sub s with
  | Some n => Z.of_nat n
  | None => -1
  end.

End Py.

Notation "'do' x <- c1 ; c2" := (Py.bind c1 (fun x => c2))
  (at level 10, x name, c1 at level 100, c2 at level 200).
Notation "'run' c1 ; c2" := (Py.bind c1 (fun _ => c2))
  (at level 10, c1 at level 100, c2 at level 200).

(** ** driver_irplus.py *)
Module DriverIRPlus.
Import Py.

(** The names bound at module level by the [import] statements and the
    class definition. [time] is not among them. *)
Definition globals : list (string * object) :=
  [ ("DriverNull", ClassObj "DriverNull");
    ("requests", ModuleObj "requests");
    ("base64", ModuleObj "base64");
    ("json", ModuleObj "json");
    ("CommandType", ClassObj "CommandType");
    ("DriverIRPlus", ClassObj "DriverIRPlus") ].

(** An entry of [COMMAND_HANDLER]; its ["handler"] is always
    [self.sendCommand]. *)
Record handler := Handler {
  arguments : Z;
  extras : string;
  name : string;
  description : string;
  type : Z
}.

(** One entry of ["commands"] in the JSON config file. *)
Record command := Command {
  c_type : Z;
  c_sequence : option string;
  c_name : option string;
  c_description : option string
}.

(** The JSON config file: the IR command file it names, and the
    commands in the order the loop of [__init__] visits them. *)
Record config := Config {
  file : string;
  commands : list (string * command)
}.

Record t := Driver {
  power : bool;
  server : string;
  cmd_on : option string;
  cmd_off : option string;
  ircmds : gmap string string;
  COMMAND_HANDLER : gmap string handler
}.

Definition set_power (self : t) (enable : bool) : t :=
  {| power := enable; server := server self;
     cmd_on := cmd_on self; cmd_off := cmd_off self;
     ircmds := ircmds self; COMMAND_HANDLER := COMMAND_HANDLER self |}.

(** The body of the loop [for cmd in data["commands"]]. *)
Definition register (self : t) (entry : string * command) : t :=
  let cmd := entry.1 in
  let c := entry.2 in
  {| power := power self; server := server self;
     cmd_on := if bool_decide (c_type c = 901) then Some cmd else cmd_on self;
     cmd_off := if bool_decide (c_type c = 902) then Some cmd else cmd_off self;
     ircmds := ircmds self;
     COMMAND_HANDLER :=
       <[ cmd := {| arguments := 0;
                    extras := default cmd (c_sequence c);
                    name := default cmd (c_name c);
                    description := default cmd (c_description c);
                    type := c_type c |} ]> (COMMAND_HANDLER self) |}.

(** [__init__(self, server, commandfile)]. [power0] and [handlers0] are
    what [DriverNull.__init__] leaves in [self.power] and
    [self.COMMAND_HANDLER]; [data] is the parsed [commandfile] and
    [load] gives the parsed content of the IR command file it names. *)
Definition __init__ (power0 : bool) (handlers0 : gmap string handler)
    (load : string -> gmap string string)
    (server : string) (data : config) : t :=
  foldl register
    {| power := power0; server := server;
       cmd_on := None; cmd_off := None;
       ircmds := load (file data);
       COMMAND_HANDLER := handlers0 |}
    (commands data).

Section Methods.
Variable net : network.

(** [sendIr(self, command)]: returns [False] ([Some false]) when the
    bridge does not answer 200, and falls off the end ([None])
    otherwise. *)
Definition sendIr (command : string) : M t (option bool) :=
  do self <- get;
  run (if negb (contains (ircmds self) command)
       then emit (Print ("WARN: " +:+ command +:+ " is not a defined IR command"))
       else ret tt);
  do ir <- getitem (ircmds self) command;
  let url := server self +:+ "/write/" +:+ ir in
  do r <- send net (Get url);
  if bool_decide (status_code r ≠ 200) then
    run emit (Print ("ERROR: Driver was unable to execute " +:+ url));
    ret (Some false)
  else
    do j <- json r;
    ret None.

(** The loop [for cmd in seq] of [sendCommand]. *)
Fixpoint issue (seq : list string) : M t unit :=
  match seq with
  | [] => ret tt
  | cmd :: rest =>
      run (if isdigit cmd then
             do time <- global globals "time";
             emit (Sleep (int_of_digits cmd))
           else
             do sent <- sendIr cmd;
             ret tt);
      issue rest
  end.

(** [sendCommand(self, zone, command)]. *)
Definition sendCommand (zone : option string) (command : string) : M t unit :=
  issue (split "," command).

(** [setPower(self, enable)]. *)
Definition setPower (enable : bool) : M t bool :=
  do self <- get;
  if bool_decide (power self = enable) then ret true
  else
    run (match enable, cmd_on self, cmd_off self with
         | true, Some on, _ =>
             do h <- getitem (COMMAND_HANDLER self) on;
             sendCommand None (extras h)
         | _, _, Some off =>
             do h <- getitem (COMMAND_HANDLER self) off;
             sendCommand None (extras h)
         | _, _, None => ret tt
         end);
    run modify (fun self => set_power self enable);
    ret true.

End Methods.

End DriverIRPlus.

(** ** driver_roku.py *)
Module DriverRoku.
Import Py.

(** The names bound at module level. [appid] is not among them. *)
Definition globals : list (string * object) :=
  [ ("DriverNull", ClassObj "DriverNull");
    ("requests", ModuleObj "requests");
    ("ElementTree", ModuleObj "ElementTree");
    ("CommandType", ClassObj "CommandType");
    ("logging", ModuleObj "logging");
    ("DriverRoku", ClassObj "DriverRoku") ].

(** The attributes of a [DriverRoku]. [apps] is the dict built by
    [getApps]: application name (the text of an element, which may be
    [None]) to application id. *)
Record t := Driver {
  server : string;
  home : option Z;
  apps : gmap (option string) Z
}.

Definition set_home (h : option Z) (self : t) : t :=
  {| server := server self; home := h; apps := apps self |}.

Definition set_apps (a : gmap (option string) Z) (self : t) : t :=
  {| server := server self; home := home self; apps := a |}.

(** [__init__(self, server)], without the command registrations, which
    go through [DriverNull.addCommand]. [apps0] stands for the
    attribute [self.apps], which [eventExtras] assigns before any use. *)
Definition __init__ (apps0 : gmap (option string) Z) (server : string) : t :=
  {| server := "http://" +:+ server +:+ ":8060/"; home := None; apps := apps0 |}.

Section Methods.
Variable net : network.

(** The builtin [int] applied to a string; [None] stands for the
    [ValueError] it raises on text that is no integer literal. *)
Variable int_of_string : string -> option Z.

Definition int (s : string) : M t Z :=
  match int_of_string s with
  | Some z => ret z
  | None => raise (ValueError ("invalid literal for int() with base 10: " +:+ s))
  end.

(** [x.lower()] where [x] may be [None]. *)
Definition lower_of (x : option string) : M t string :=
  match x with
  | Some s => ret (lower s)
  | None => raise (AttributeError "'NoneType' object has no attribute 'lower'")
  end.

(** [startApp(self, appid)]. *)
Definition startApp (appid : Z) : M t unit :=
  do self <- get;
  do r <- send net (Post (server self +:+ "launch/" +:+ pretty appid));
  ret tt.

(** The loop [for branch in tree] of [getApps]. *)
Fixpoint scan (result : gmap (option string) Z) (tree : list element)
    : M t (gmap (option string) Z) :=
  match tree with
  | [] => ret result
  | branch :: rest =>
      do menu <- (if String.eqb (tag branch) "app" then
                    do ty <- getitem (attrib branch) "type";
                    ret (String.eqb ty "menu")
                  else ret false);
      run (if menu then
             do txt <- lower_of (text branch);
             if -1 <? find "home" txt then
               do id <- getitem (attrib branch) "id";
               do n <- int id;
               modify (set_home (Some n))
             else ret tt
           else ret tt);
      do skip <- (if negb (String.eqb (tag branch) "app") then ret true
                  else
                    do ty <- getitem (attrib branch) "type";
                    ret (negb (String.eqb ty "appl")));
      if skip then scan result rest
      else
        do id <- getitem (attrib branch) "id";
        do n <- int id;
        scan (<[ text branch := n ]> result) rest
  end.

(** [getApps(self)]. *)
Definition getApps : M t (gmap (option string) Z) :=
  do self <- get;
  do r <- send net (Get (server self +:+ "query/apps"));
  do tree <- fromstring r;
  if negb (String.eqb (tag (root tree)) "apps") then ret ∅
  else scan ∅ (branches tree).

(** [eventOff(self)]. *)
Definition eventOff : M t unit :=
  do self <- get;
  run (if bool_decide (home self = None) then
         do found <- getApps; ret tt
       else ret tt);
  do self <- get;
  match home self with
  | None => ret tt
  | Some h => startApp h
  end.

(** The loop [for key in self.apps] of the ["app"] branch. *)
Fixpoint launch_by_name (k : string) (items : list (option string * Z)) : M t unit :=
  match items with
  | [] => ret tt
  | (key, id) :: rest =>
      do name <- lower_of key;
      if -1 <? find name k then startApp id
      else launch_by_name k rest
  end.

(** The loop [for key in self.apps] of the ["appid"] branch. *)
Fixpoint launch_by_id (i : Z) (items : list (option string * Z)) : M t unit :=
  match items with
  | [] => ret tt
  | (key, id) :: rest =>
      if bool_decide (id = i) then startApp i
      else launch_by_id i rest
  end.

(** [extras[o]] where [o] is a module or a class: the keys of
    [extras] are strings, so the lookup misses. *)
Definition getitem_object (extras : gmap string string) (o : object) : M t string :=
  raise (KeyError (object_name o)).

(** [eventExtras(self, extras)]. *)
Definition eventExtras (extras : gmap string string) : M t unit :=
  do found <- getApps;
  run modify (set_apps found);
  if contains extras "app" then
    do v <- getitem extras "app";
    launch_by_name (lower v) (map_to_list found)
  else if contains extras "appid" then
    do appid <- global globals "appid";
    do v <- getitem_object extras appid;
    do i <- int v;
    launch_by_id i (map_to_list found)
  else ret tt.

Definition keypress (key : string) : M t unit :=
  do self <- get;
  do r <- send net (Post (server self +:+ "keypress/" +:+ key));
  ret tt.

Definition navUp (zone : option string) : M t unit := keypress "Up".
Definition navDown (zone : option string) : M t unit := keypress "Down".
Definition navLeft (zone : option string) : M t unit := keypress "Left".
Definition navRight (zone : option string) : M t unit := keypress "Right".
Definition navEnter (zone : option string) : M t unit := keypress "Select".
Definition navBack (zone : option string) : M t unit := keypress "Back".
Definition navHome (zone : option string) : M t unit := keypress "Home".
Definition playbackInfo (zone : option string) : M t unit := keypress "Info".
Definition playbackPlay (zone : option string) : M t unit := keypress "Play".
Definition playbackFF (zone : option string) : M t unit := keypress "Fwd".
Definition playbackRW (zone : option string) : M t unit := keypress "Rev".

(** The key name [navTextInput] computes for one character [l] of
    the text: [l] is a string of length one, and it is compared with
    integers. *)
Definition key_of (l : ascii) : string :=
  let s := String l EmptyString in
  if eq (VStr s) (VInt 13) || eq (VStr s) (VInt 10) then "Enter"
  else if eq (VStr s) (VInt 8) then "Backspace"
  else "Lit_" +:+ s.

(** [navTextInput(self, zone, txt)]. *)
Fixpoint navTextInput (zone : option string) (txt : string) : M t unit :=
  match txt with
  | EmptyString => ret tt
  | String l rest =>
      run keypress (key_of l);
      navTextInput zone rest
  end.

End Methods.

End DriverRoku.

(** ** setup.py *)
Module SystemSetup.

(** The driver objects of [DRIVER_TABLE], by constructor call. *)
Inductive driver_object :=
| DriverRXV1900 (server : string)
| DriverSpotify
| DriverBasicIR (server commandfile : string)
| DriverIRPlus (server commandfile : string)
| DriverPlex (server mac iface : string)
| DriverRoku (server : string)
| DriverNull.

Definition OPTIONS : gmap string string :=
  list_to_map [ ("pin-remote", "1234") ].

Definition AV : string := "http://raspberry.sfo.sensenet.nu".

Definition DRIVER_TABLE : gmap string driver_object :=
  list_to_map
    [ ("receiver", DriverRXV1900 (AV +:+ ":5000"));
      ("spotify", DriverSpotify);
      ("splitter", DriverBasicIR (AV +:+ ":5001") "../ir-devices/accessories/sony-hdmiswitch.json");
      ("tv", DriverBasicIR (AV +:+ ":5001") "../ir-devices/displays/lg-55la7400.json");
      ("dvd", DriverIRPlus (AV +:+ ":5001") "config/dvd.json");
      ("screen", DriverBasicIR (AV +:+ ":5001") "../ir-devices/accessories/elite_screens-electric100h.json");
      ("projector", DriverIRPlus (AV +:+ ":5001") "config/projector.json");
      ("plex", DriverPlex "plex.sfo.sensenet.nu" "00:25:22:e0:94:7d" "eth1");
      ("roku", DriverRoku "roku.sfo.sensenet.nu");
      ("null1", DriverNull) ].

(** A route: the drivers taking part, each with its commands, in the
    order they are written. *)
Definition route : Type := list (string * list string).

Definition ROUTING_TABLE : gmap string (gmap string (list route)) :=
  list_to_map
    [ ("spotify", list_to_map
         [ ("audio", [ [ ("receiver", ["input-mdcdr"]) ] ]) ]);
      ("null1", list_to_map
         [ ("audio", [ [ ("receiver", ["input-cd"]) ] ]) ]);
      ("plex", list_to_map
         [ ("audio", [ [ ("receiver", ["input-dvr"]) ] ]);
           ("audio+video",
              [ [ ("tv", ["input-hdmi1"]);
                  ("receiver", ["input-dvr"]) ];
                [ ("projector", []);
                  ("receiver", ["input-dvr"]);
                  ("screen", []) ] ]) ]);
      ("roku", list_to_map
         [ ("audio+video",
              [ [ ("tv", ["input-hdmi1"]);
                  ("receiver", ["input-dvd"]) ];
                [ ("projector", []);
                  ("receiver", ["input-dvd"]);
                  ("screen", []) ] ]);
           ("audio", [ [ ("receiver", ["input-dvd"]) ] ]) ]);
      ("ps4", list_to_map
         [ ("audio+video",
              [ [ ("receiver", ["input-cbl"]);
                  ("tv", ["input-hdmi1"]);
                  ("splitter", ["input-hdmi2"]) ];
                [ ("receiver", ["input-cbl"]);
                  ("projector", []);
                  ("splitter", ["input-hdmi2"]);
                  ("screen", []) ] ]);
           ("audio",
              [ [ ("receiver", ["input-cbl"]);
                  ("splitter", ["input-hdmi2"]) ] ]) ]);
      ("dvd", list_to_map
         [ ("audio+video",
              [ [ ("receiver", ["input-cbl"]);
                  ("tv", ["input-hdmi1"]);
                  ("splitter", ["input-hdmi3"]) ];
                [ ("receiver", ["input-cbl"]);
                  ("projector", []);
                  ("splitter", ["input-hdmi3"]);
                  ("screen", []) ] ]);
           ("audio",
              [ [ ("receiver", ["input-cbl"]);
                  ("splitter", ["input-hdmi3"]) ] ]) ]) ].

Record scene := Scene {
  driver : string;
  driver_extras : option string;
  name : string;
  description : string;
  audio : bool;
  video : bool;
  ux_hint : string
}.

(** The double-quote character inside two of the texts. *)
Definition dq : string := String "034"%char EmptyString.

Definition SCENE_TABLE : gmap string scene :=
  list_to_map
    [ ("spotify",
         {| driver := "spotify"; driver_extras := None;
            name := "Spotify";
            description := "Allows you to listen to music";
            audio := true; video := false;
            ux_hint := "android-app=com.spotify.music,category=music,icon=spotify" |});
      ("airplay",
         {| driver := "null1"; driver_extras := None;
            name := "AirPlay";
            description := "Streams from " +:+ dq +:+ "House Speakers" +:+ dq;
            audio := true; video := false;
            ux_hint := "category=music,icon=airplay,message=Connect your iOS device to "
                       +:+ dq +:+ "House Speakers" +:+ dq
                       +:+ " to stream music to the speakers" |});
      ("dvd",
         {| driver := "dvd"; driver_extras := None;
            name := "DVD Player";
            description := "Region free DVD player";
            audio := true; video := true;
            ux_hint := "category=video,icon=dvd" |});
      ("plex",
         {| driver := "plex"; driver_extras := None;
            name := "Plex Media Center";
            description := "Watch movies and TV series";
            audio := true; video := true;
            ux_hint := "category=video,icon=plex" |});
      ("netflix",
         {| driver := "roku"; driver_extras := Some "app=netflix";
            name := "NetFlix";
            description := "Watch movies and TV series";
            audio := true; video := true;
            ux_hint := "category=video,icon=netflix" |});
      ("amazon",
         {| driver := "roku"; driver_extras := Some "app=amazon";
            name := "Amazon Prime";
            description := "Watch movies and TV series";
            audio := true; video := true;
            ux_hint := "category=video,icon=amazon" |});
      ("ps4",
         {| driver := "ps4"; driver_extras := None;
            name := "Playstation 4";
            description := "Play games";
            audio := true; video := true;
            ux_hint := "category=gaming,icon=ps4" |}) ].

(** A zone that names its drivers: an entry of [ZONE_TABLE] without
    sub-zones, or one sub-zone. [None] is a missing capability. *)
Record simple_zone := SimpleZone {
  z_name : string;
  z_audio : option string;
  z_video : option string;
  z_ux_hint : string
}.

Inductive zone :=
| Simple (z : simple_zone)
| Virtual (v_name : string) (subzone_default : option string)
          (subzones : gmap string simple_zone) (v_ux_hint : string).

Definition ZONE_TABLE : gmap string zone :=
  list_to_map
    [ ("zone1",
         Virtual "Livingroom" (Some "tv")
           (list_to_map
              [ ("tv",
                   {| z_name := "TV"; z_audio := Some "receiver:1";
                      z_video := Some "tv"; z_ux_hint := "" |});
                ("projector",
                   {| z_name := "Cinema"; z_audio := Some "receiver:1";
                      z_video := Some "projector"; z_ux_hint := "" |}) ])
           "");
      ("zone2",
         Simple {| z_name := "Kitchen"; z_audio := Some "receiver:2";
                   z_video := None; z_ux_hint := "" |});
      ("zone3",
         Simple {| z_name := "Patio"; z_audio := Some "receiver:3";
                   z_video := None; z_ux_hint := "" |}) ].

(** The driver ids a route table mentions as route keys. *)
Definition route_drivers (table : gmap string (gmap string (list route))) : list string :=
  '(scene_driver, classes) ← map_to_list table;
  '(class, candidates) ← map_to_list classes;
  r ← candidates;
  r.*1.

(** The producing drivers of the scenes of a scene table. *)
Definition scene_drivers (table : gmap string scene) : list (string * string) :=
  (λ kv, (kv.1, driver kv.2)) <$> map_to_list table.

(** The driver ids a zone table refers to, without the sub-index. *)
Definition driver_of (ref : string) : string :=
  hd EmptyString (Py.split ":" ref).

Definition undeclared (registry : gmap string driver_object) (ids : list string) : list string :=
  filter (λ d, registry !! d = None) ids.

End SystemSetup.

(** ** The routing and arbitration engine

    The router, the catalog interface and the allocation table are not
    among the source files; they are written here after the
    specification, over the tables of [SystemSetup]. *)
Module Router.
Import SystemSetup.

Inductive capability := Audio | AudioVideo.

(** Modelled from the spec: the key under which the routing table files
    the routes of a capability class (the catalog's accessor code is
    missing). *)
Definition class_key (c : capability) : string :=
  match c with Audio => "audio" | AudioVideo => "audio+video" end.

(** Modelled from the spec: the Catalog and the Driver Registry, the
    read-only tables the router consults (their classes are missing). *)
Record catalog := Catalog {
  registry : gmap string driver_object;
  scenes : gmap string scene;
  zones : gmap string zone;
  routing : gmap string (gmap string (list route))
}.

Definition setup : catalog :=
  {| registry := DRIVER_TABLE; scenes := SCENE_TABLE;
     zones := ZONE_TABLE; routing := ROUTING_TABLE |}.

(** A concrete zone: a zone id, with the sub-zone name for a sub-zone
    of a virtual zone. *)
Definition zone_ref : Type := string * option string.

(** Modelled from the spec: the failure kinds of section 7, each with
    the identifiers it is about (the router's error type is missing). *)
Inductive failure :=
| UnknownScene (sceneId : string)
| UnknownZone (zoneId : string) (sub : option string)
| UnknownDriver (driverId : string)
| NoDefaultSubzone (zoneId : string)
| CapabilityMismatch (sceneId : string) (z : zone_ref)
| NoRouteDefined (sceneId : string) (c : capability)
| NoMatchingRoute (sceneId : string) (z : zone_ref)
| DriverConflict (driverId : string) (owningZone : zone_ref)
| UnknownCommand (driverId command : string)
| UnsupportedOperation (driverId : string)
| DriverUnreachable (driverId : string).

Inductive result (A : Type) :=
| Ok (a : A)
| Err (f : failure).
Arguments Ok {A} a.
Arguments Err {A} f.

(** Modelled from the spec: the allocation entry of a zone (the
    allocation table's code is missing): active scene, capability class,
    the drivers held, and whether the audio and the video capability are
    still active after a forced release. *)
Record claim := Claim {
  active_scene : string;
  class : capability;
  held : gset string;
  audio_on : bool;
  video_on : bool
}.

(** Modelled from the spec: the Allocation Table (its code is missing).
    The owners and the reference count of a driver are read off the
    claims, see [owners] and [reference_count]; [active_subzone] records
    the active sub-zone of a virtual zone and [powered] the drivers
    whose power flag is on. *)
Record allocation := Allocation {
  claims : gmap zone_ref claim;
  active_subzone : gmap string string;
  powered : gset string
}.

Definition idle : allocation :=
  {| claims := ∅; active_subzone := ∅; powered := ∅ |}.

(** Modelled from the spec: the calls the router makes on the Driver
    Registry (missing), and the suspension a digit-only token asks for. *)
Inductive action :=
| PowerOn (driverId : string)
| PowerOff (driverId : string)
| ApplyExtras (driverId extras : string)
| Send (driverId command : string) (zoneIndex : option string)
| Suspend (milliseconds : Z).

(** Modelled from the spec: the zones holding a driver (missing
    allocation-table code). *)
Definition owners (st : allocation) (d : string) : list zone_ref :=
  (filter (λ kv : zone_ref * claim, d ∈ held kv.2) (map_to_list (claims st))).*1.

(** Modelled from the spec: the reference count of a driver, the number
    of zones listing it in their held set (missing allocation-table
    code). *)
Definition reference_count (st : allocation) (d : string) : nat :=
  length (owners st d).

Definition other_owners (st : allocation) (self : zone_ref) (d : string) : list zone_ref :=
  filter (λ z, z ≠ self) (owners st d).

(** Modelled from the spec: [resolveConcreteZone] of section 4.2
    (missing catalog code): the active sub-zone if one is recorded, else
    the declared default; a simple zone resolves to itself. *)
Definition resolveConcreteZone (cat : catalog) (st : allocation) (zoneId : string)
    : result (option string * simple_zone) :=
  match zones cat !! zoneId with
  | None => Err (UnknownZone zoneId None)
  | Some (Simple z) => Ok (None, z)
  | Some (Virtual _ dflt subs _) =>
      match (match active_subzone st !! zoneId with
             | Some s => Some s
             | None => dflt
             end) with
      | None => Err (NoDefaultSubzone zoneId)
      | Some s =>
          match subs !! s with
          | Some z => Ok (Some s, z)
          | None => Err (UnknownZone zoneId (Some s))
          end
      end
  end.

(** Modelled from the spec: step 1 of [activate] (missing router code).
    A request names a zone and, to activate a sub-zone explicitly, the
    sub-zone; without one the zone is resolved by
    [resolveConcreteZone]. *)
Definition resolveTarget (cat : catalog) (st : allocation)
    (zoneId : string) (sub : option string)
    : result (option string * simple_zone) :=
  match sub with
  | None => resolveConcreteZone cat st zoneId
  | Some s =>
      match zones cat !! zoneId with
      | Some (Virtual _ _ subs _) =>
          match subs !! s with
          | Some z => Ok (Some s, z)
          | None => Err (UnknownZone zoneId (Some s))
          end
      | _ => Err (UnknownZone zoneId (Some s))
      end
  end.

(** Modelled from the spec: step 2 of [activate] (missing router
    code). *)
Definition capabilityClass (sceneId : string) (sc : scene)
    (target : zone_ref) (z : simple_zone) : result capability :=
  if video sc && bool_decide (is_Some (z_video z)) then Ok AudioVideo
  else if audio sc && bool_decide (is_Some (z_audio z)) then Ok Audio
  else Err (CapabilityMismatch sceneId target).

(** Modelled from the spec: [routesFor] of section 4.2 (missing catalog
    code); the routing table files routes under the scene's producing
    driver. *)
Definition routesFor (cat : catalog) (sc : scene) (c : capability) : list route :=
  default [] (routing cat !! driver sc ≫= λ classes, classes !! class_key c).

(** Modelled from the spec: the zone's designated drivers for a class,
    step 4 of [activate] (missing router code). *)
Definition designated (z : simple_zone) (c : capability) : list string :=
  match c with
  | Audio => driver_of <$> option_list (z_audio z)
  | AudioVideo =>
      (driver_of <$> option_list (z_audio z)) ++ (driver_of <$> option_list (z_video z))
  end.

Definition qualifies (wanted : list string) (r : route) : bool :=
  forallb (λ d, bool_decide (d ∈ r.*1)) wanted.

(** Modelled from the spec: first-match route selection, step 4 of
    [activate] (missing router code). *)
Definition selectRoute (candidates : list route) (wanted : list string) : option route :=
  List.find (qualifies wanted) candidates.

(** Modelled from the spec: the required driver set, step 5 of
    [activate] (missing router code), in the order the conflict check
    visits it: the route's keys, then the producing driver. *)
Definition requiredDrivers (r : route) (sc : scene) : list string :=
  if bool_decide (driver sc ∈ r.*1) then r.*1 else r.*1 ++ [driver sc].

Record plan := Plan {
  target : zone_ref;
  target_zone : simple_zone;
  scene_id : string;
  the_scene : scene;
  satisfied : capability;
  chosen : route;
  required : list string
}.

(** Modelled from the spec: steps 1 to 5 of [activate] (missing router
    code), which read the catalog and never touch the allocation
    table. *)
Definition planActivation (cat : catalog) (st : allocation)
    (zoneId : string) (sub : option string) (sceneId : string) : result plan :=
  match resolveTarget cat st zoneId sub with
  | Err f => Err f
  | Ok (s, z) =>
      match scenes cat !! sceneId with
      | None => Err (UnknownScene sceneId)
      | Some sc =>
          match capabilityClass sceneId sc (zoneId, s) z with
          | Err f => Err f
          | Ok c =>
              match routesFor cat sc c with
              | [] => Err (NoRouteDefined sceneId c)
              | candidates =>
                  match selectRoute candidates (designated z c) with
                  | None => Err (NoMatchingRoute sceneId (zoneId, s))
                  | Some r =>
                      match List.find (λ d, bool_decide (registry cat !! d = None))
                                      (requiredDrivers r sc) with
                      | Some d => Err (UnknownDriver d)
                      | None =>
                          Ok {| target := (zoneId, s); target_zone := z;
                                scene_id := sceneId; the_scene := sc; satisfied := c; chosen := r;
                                required := requiredDrivers r sc |}
                      end
                  end
              end
          end
      end
  end.

(** Modelled from the spec: the conflict check of step 6 (missing
    router code): the first required driver held by another zone, with
    that zone. *)
Fixpoint firstConflict (st : allocation) (self : zone_ref) (ds : list string)
    : option (string * zone_ref) :=
  match ds with
  | [] => None
  | d :: rest =>
      match other_owners st self d with
      | owner :: _ => Some (d, owner)
      | [] => firstConflict st self rest
      end
  end.

(** The simple zone a concrete zone stands for. *)
Definition concrete (cat : catalog) (z : zone_ref) : option simple_zone :=
  match zones cat !! z.1, z.2 with
  | Some (Simple sz), None => Some sz
  | Some (Virtual _ _ subs _), Some s => subs !! s
  | _, _ => None
  end.

Definition still_held (ref : option string) (h : gset string) : bool :=
  match ref with
  | Some r => bool_decide (driver_of r ∈ h)
  | None => false
  end.

(** Modelled from the spec: the forced release of step 6 (missing
    router code): the contested drivers leave the held set of an owning
    zone, and a capability whose driver left is marked inactive. *)
Definition shrink (cat : catalog) (contested : gset string)
    (z : zone_ref) (c : claim) : claim :=
  if bool_decide (held c ∩ contested = ∅) then c
  else
    let h := held c ∖ contested in
    {| active_scene := active_scene c; class := class c; held := h;
       audio_on := audio_on c
                   && from_option (λ sz, still_held (z_audio sz) h) false (concrete cat z);
       video_on := video_on c
                   && from_option (λ sz, still_held (z_video sz) h) false (concrete cat z) |}.

Definition release (cat : catalog) (self : zone_ref) (contested : gset string)
    (cl : gmap zone_ref claim) : gmap zone_ref claim :=
  map_imap (λ z c, Some (if bool_decide (z = self) then c else shrink cat contested z c)) cl.

(** The sub-index of the zone's reference to a driver, as in
    ["receiver:1"]. *)
Definition index_of (ref : string) : option string :=
  match Py.split ":" ref with
  | _ :: i :: _ => Some i
  | _ => None
  end.

Definition zoneIndex (z : simple_zone) (d : string) : option string :=
  match list_find (λ ref, driver_of ref = d)
                  (option_list (z_audio z) ++ option_list (z_video z)) with
  | Some (_, ref) => index_of ref
  | None => None
  end.

(** Modelled from the spec: the command execution of step 7 (missing
    router code): a digit-only token suspends issuance for that many
    milliseconds, any other token is sent to the driver. *)
Definition tokenAction (z : simple_zone) (d : string) (token : string) : action :=
  if Py.isdigit token then Suspend (Py.int_of_digits token)
  else Send d token (zoneIndex z d).

Definition routeActions (z : simple_zone) (r : route) : list action :=
  '(d, commands) ← r; tokenAction z d <$> commands.

Definition extrasActions (sc : scene) : list action :=
  match driver_extras sc with
  | Some e => [ApplyExtras (driver sc) e]
  | None => []
  end.

(** Modelled from the spec: the hard stop of section 7 (missing router
    code): the calls are made in order until one fails; [responds]
    gives the failure of a driver call, if it fails. *)
Fixpoint execute (responds : action -> option failure) (todo : list action)
    : list action * option failure :=
  match todo with
  | [] => ([], None)
  | a :: rest =>
      match (match a with
             | ApplyExtras _ _ | Send _ _ _ => responds a
             | _ => None
             end) with
      | Some f => ([a], Some f)
      | None =>
          let '(made, failed) := execute responds rest in
          (a :: made, failed)
      end
  end.

Definition referenced (cl : gmap zone_ref claim) : gset string :=
  ⋃ (held <$> (map_to_list cl).*2).

(** Modelled from the spec: the power-down sweep of section 4.4
    (missing power-manager code): afterwards a driver is powered
    exactly when a zone references it. *)
Definition sweep (st : allocation) : allocation * list action :=
  let wanted := referenced (claims st) in
  ({| claims := claims st; active_subzone := active_subzone st; powered := wanted |},
   (PowerOff <$> elements (powered st ∖ wanted))
     ++ (PowerOn <$> elements (wanted ∖ powered st))).

Definition record_subzone (z : zone_ref) (a : gmap string string) : gmap string string :=
  match z.2 with
  | Some s => <[ z.1 := s ]> a
  | None => a
  end.

(** Modelled from the spec: steps 6 to 9 of [activate] (missing router
    code) for a plan: conflict check, commit, sweep, result. *)
Definition commit (cat : catalog) (responds : action -> option failure)
    (override : bool) (p : plan) (st : allocation)
    : result (capability * gset string) * allocation * list action :=
  match (if override then None else firstConflict st (target p) (required p)) with
  | Some (d, owner) => (Err (DriverConflict d owner), st, [])
  | None =>
      let wanted : gset string := list_to_set (required p) in
      let fresh := filter (λ d, owners st d = []) (required p) in
      let '(made, failed) :=
        execute responds (extrasActions (the_scene p)
                          ++ routeActions (target_zone p) (chosen p)) in
      let mine := {| active_scene := scene_id p; class := satisfied p;
                     held := wanted; audio_on := true;
                     video_on := match satisfied p with
                                 | AudioVideo => true
                                 | Audio => false
                                 end |} in
      let '(st', offs) :=
        sweep {| claims := <[ target p := mine ]> (release cat (target p) wanted (claims st));
                 active_subzone := record_subzone (target p) (active_subzone st);
                 powered := powered st ∪ list_to_set fresh |} in
      (match failed with
       | None => Ok (satisfied p, wanted)
       | Some f => Err f
       end,
       st', (PowerOn <$> fresh) ++ made ++ offs)
  end.

(** Modelled from the spec: [activate] of section 4.3 (missing router
    code). *)
Definition activate (cat : catalog) (responds : action -> option failure)
    (zoneId : string) (sub : option string) (sceneId : string) (override : bool)
    (st : allocation)
    : result (capability * gset string) * allocation * list action :=
  match planActivation cat st zoneId sub sceneId with
  | Err f => (Err f, st, [])
  | Ok p => commit cat responds override p st
  end.

(** The concrete zones a deactivation request is about: every
    sub-zone of the zone, or the one it names. *)
Definition leaves (zoneId : string) (sub : option string) (z : zone_ref) : bool :=
  match sub with
  | None => bool_decide (z.1 = zoneId)
  | Some s => bool_decide (z = (zoneId, Some s))
  end.

(** Modelled from the spec: [deactivate] of section 4.3 (missing router
    code). Without a sub-zone the whole zone is deactivated; with one,
    that sub-zone. *)
Definition deactivate (zoneId : string) (sub : option string) (st : allocation)
    : allocation * list action :=
  sweep {| claims :=
             filter (λ kv : zone_ref * claim, leaves zoneId sub kv.1 = false) (claims st);
           active_subzone :=
             match sub with
             | None => delete zoneId (active_subzone st)
             | Some s =>
                 if bool_decide (active_subzone st !! zoneId = Some s)
                 then delete zoneId (active_subzone st)
                 else active_subzone st
             end;
           powered := powered st |}.

(** The requests the router serves, and the table after one of them. *)
Inductive request :=
| Activate (zoneId : string) (sub : option string) (sceneId : string) (override : bool)
| Deactivate (zoneId : string) (sub : option string).

Definition serve (cat : catalog) (responds : action -> option failure)
    (st : allocation) (rq : request) : allocation :=
  match rq with
  | Activate z sub sc ov => (activate cat responds z sub sc ov st).1.2
  | Deactivate z sub => (deactivate z sub st).1
  end.

(** A request that leaves the recorded sub-zone [s] of zone [z] alone:
    it is about another zone, or it activates [z] without naming a
    different sub-zone. *)
Definition keeps (z s : string) (rq : request) : Prop :=
  match rq with
  | Activate z' sub _ _ => z' ≠ z ∨ sub = None ∨ sub = Some s
  | Deactivate z' _ => z' ≠ z
  end.

End Router.

(** ** Concrete devices and states used to run the definitions *)
Module Examples.
Import Py.

(** A bridge that answers every request with status 200 and a JSON
    body. *)
Definition bridge : network :=
  fun _ _ => {| status_code := 200; content := Json |}.

(** The config file given as the example in the documentation of
    [driver_irplus.py]. *)
Definition projector_json : DriverIRPlus.config :=
  {| DriverIRPlus.file := "projector.json";
     DriverIRPlus.commands :=
       [ ("on", {| DriverIRPlus.c_type := 901;
                   DriverIRPlus.c_sequence := None;
                   DriverIRPlus.c_name := None;
                   DriverIRPlus.c_description := None |});
         ("off", {| DriverIRPlus.c_type := 902;
                    DriverIRPlus.c_sequence := Some "off,200,off";
                    DriverIRPlus.c_name := None;
                    DriverIRPlus.c_description := None |}) ] |}.

(** An IR command file defining the codes of ["on"] and ["off"]. *)
Definition ir_codes (path : string) : gmap string string :=
  list_to_map [ ("on", "b24="); ("off", "b2Zm") ].

(** The projector as [setup.py] constructs it, powered off. *)
Definition projector : DriverIRPlus.t :=
  DriverIRPlus.__init__ false ∅ ir_codes
    (SystemSetup.AV +:+ ":5001") projector_json.

Definition projector_on : DriverIRPlus.t :=
  DriverIRPlus.set_power projector true.

(** A config file that defines neither a power-on nor a power-off
    command. *)
Definition mute_only_json : DriverIRPlus.config :=
  {| DriverIRPlus.file := "amp.json";
     DriverIRPlus.commands :=
       [ ("mute", {| DriverIRPlus.c_type := 1;
                     DriverIRPlus.c_sequence := None;
                     DriverIRPlus.c_name := None;
                     DriverIRPlus.c_description := None |}) ] |}.

(** Integer literals of decimal digits. *)
Definition decimal (s : string) : option Z :=
  if isdigit s then Some (int_of_digits s) else None.

(** A Roku whose application list holds the home screen and one
    application. *)
Definition roku_apps : document :=
  {| root := {| tag := "apps"; attrib := ∅; text := None |};
     branches :=
       [ {| tag := "app";
            attrib := list_to_map [ ("id", "1"); ("type", "menu") ];
            text := Some "Home" |};
         {| tag := "app";
            attrib := list_to_map [ ("id", "12"); ("type", "appl") ];
            text := Some "Netflix" |} ] |}.

Definition roku_box : network :=
  fun _ rq =>
    match rq with
    | Get _ => {| status_code := 200; content := Xml roku_apps |}
    | Post _ => {| status_code := 200; content := Garbled |}
    end.

Definition roku : DriverRoku.t :=
  DriverRoku.__init__ ∅ "roku.sfo.sensenet.nu".

(** Drivers that answer every call. *)
Definition responsive : Router.action -> option Router.failure :=
  fun _ => None.

Definition tv_subzone : SystemSetup.simple_zone :=
  {| SystemSetup.z_name := "TV"; SystemSetup.z_audio := Some "receiver:1";
     SystemSetup.z_video := Some "tv"; SystemSetup.z_ux_hint := "" |}.

Definition tv_zone : Router.zone_ref := ("zone1", Some "tv").
Definition projector_zone : Router.zone_ref := ("zone1", Some "projector").

(** The allocation table after [netflix] was activated on the [tv]
    sub-zone of [zone1], starting with nothing allocated. *)
Definition watching_tv : Router.allocation :=
  (Router.activate Router.setup responsive "zone1" (Some "tv") "netflix" false
     Router.idle).1.2.

End Examples.

(** ** Readings of a trace, and computations that only add to it *)
Module Trace.
Import Py.

(** The requests of a trace, in the order they were made. *)
Definition requests (tr : list event) : list request :=
  omap (λ ev, match ev with Http rq => Some rq | _ => None end) tr.

(** The URLs of the [POST] requests of a trace. *)
Definition posts (tr : list event) : list string :=
  omap (λ ev, match ev with Http (Post url) => Some url | _ => None end) tr.

Definition is_sleep (ev : event) : Prop :=
  match ev with Sleep _ => True | _ => False end.

(** A computation that leaves the object as it found it and only appends
    events that satisfy [P] to the trace. *)
Definition appends {S A} (P : event → Prop) (c : M S A) : Prop :=
  ∀ s t, ∃ t' o, c s t = (s, t ++ t', o) ∧ Forall P t'.

End Trace.

(** ** Checks of the tables of setup.py against the rules its comments give *)
Module SetupChecks.
Import SystemSetup.

(** The zones that name their drivers: the simple zones, and the
    sub-zones of the virtual ones. *)
Definition concrete_zones (table : gmap string zone)
    : list (string * option string * simple_zone) :=
  kv ← map_to_list table;
  match kv.2 with
  | Simple sz => [(kv.1, None, sz)]
  | Virtual _ _ subs _ => (λ sub, (kv.1, Some sub.1, sub.2)) <$> map_to_list subs
  end.

(** The driver references of a zone table. *)
Definition zone_references (table : gmap string zone) : list string :=
  z ← concrete_zones table;
  option_list (z_audio z.2) ++ option_list (z_video z.2).

(** The default sub-zone of a virtual zone is one of its sub-zones. *)
Definition default_declared (z : zone) : bool :=
  match z with
  | Simple _ => true
  | Virtual _ None _ _ => false
  | Virtual _ (Some d) subs _ => bool_decide (is_Some (subs !! d))
  end.

(** The kind of path a scene takes into a zone: audio and video when
    both provide video, else audio when both provide audio. *)
Definition path_kind (sc : scene) (z : simple_zone) : option string :=
  if video sc && bool_decide (is_Some (z_video z)) then Some "audio+video"
  else if audio sc && bool_decide (is_Some (z_audio z)) then Some "audio"
  else None.

(** The drivers of the zone a route of that kind has to go through. *)
Definition needed (z : simple_zone) (kind : string) : list string :=
  if bool_decide (kind = "audio+video")
  then driver_of <$> (option_list (z_video z) ++ option_list (z_audio z))
  else driver_of <$> option_list (z_audio z).

(** The routes of a scene driver that have the needed devices in the
    route, as in [submitRoute("roku", ["tv", "receiver"])]. *)
Definition matching (table : gmap string (gmap string (list route)))
    (scene_driver kind : string) (devices : list string) : list route :=
  filter (λ r : route, Forall (λ d, d ∈ r.*1) devices)
         (default [] (table !! scene_driver ≫= λ kinds, kinds !! kind)).

End SetupChecks.

(** ** More devices to run the definitions on *)
Module MoreExamples.
Import Py.

(** A bridge that refuses every request. *)
Definition broken_bridge : network :=
  fun _ _ => {| status_code := 500; content := Garbled |}.

(** A config file with two commands of type 901 and none of type 902. *)
Definition two_on_json : DriverIRPlus.config :=
  {| DriverIRPlus.file := "screen.json";
     DriverIRPlus.commands :=
       [ ("on", {| DriverIRPlus.c_type := 901;
                   DriverIRPlus.c_sequence := None;
                   DriverIRPlus.c_name := None;
                   DriverIRPlus.c_description := None |});
         ("down", {| DriverIRPlus.c_type := 901;
                     DriverIRPlus.c_sequence := Some "on,off";
                     DriverIRPlus.c_name := Some "Lower";
                     DriverIRPlus.c_description := None |}) ] |}.

(** A config file that defines a power-off command and no power-on
    command. *)
Definition off_only_json : DriverIRPlus.config :=
  {| DriverIRPlus.file := "fan.json";
     DriverIRPlus.commands :=
       [ ("off", {| DriverIRPlus.c_type := 902;
                    DriverIRPlus.c_sequence := None;
                    DriverIRPlus.c_name := None;
                    DriverIRPlus.c_description := None |}) ] |}.

Definition fan : DriverIRPlus.t :=
  DriverIRPlus.__init__ false ∅ Examples.ir_codes "http://fan" off_only_json.

(** The Roku of [Examples] once it has read its application list. *)
Definition roku_listed : DriverRoku.t :=
  {| DriverRoku.server := "http://roku.sfo.sensenet.nu:8060/";
     DriverRoku.home := Some 1;
     DriverRoku.apps := {[ Some "Netflix" := 12 ]} |}.

(** The scene [netflix] of [SCENE_TABLE]. *)
Definition netflix : SystemSetup.scene :=
  {| SystemSetup.driver := "roku";
     SystemSetup.driver_extras := Some "app=netflix";
     SystemSetup.name := "NetFlix";
     SystemSetup.description := "Watch movies and TV series";
     SystemSetup.audio := true; SystemSetup.video := true;
     SystemSetup.ux_hint := "category=video,icon=netflix" |}.

End MoreExamples.

(* ===================================================================== *)
(** * Part II: properties *)
(* ===================================================================== *)

(** ** The IR+ driver *)
Module IRPlusProofs.
Import Py DriverIRPlus Examples.

(** A [set_power] to the state the driver is in changes nothing. *)
Lemma set_power_same (self : t) : set_power self (power self) = self.
Proof. by destruct self. Qed.

Lemma power_set_power (self : t) (enable : bool) :
  power (set_power self enable) = enable.
Proof. done. Qed.

(** Registering commands that are neither of type 901 nor of type 902
    leaves [cmd_on] and [cmd_off] as they were. *)
Lemma register_keeps_power_commands (l : list (string * command)) (self : t) :
  Forall (λ e, c_type e.2 ≠ 901 ∧ c_type e.2 ≠ 902) l →
  cmd_on (foldl register self l) = cmd_on self
  ∧ cmd_off (foldl register self l) = cmd_off self.
Proof.
  intros Hl. revert self.
  induction Hl as [|e l [Hon Hoff] _ IH]; intros self; [done|].
  cbn [foldl]. destruct (IH (register self e)) as [-> ->].
  unfold register; cbn.
  by rewrite !bool_decide_false.
Qed.

Lemma init_without_power_commands power0 handlers0 load srv data :
  Forall (λ e, c_type e.2 ≠ 901 ∧ c_type e.2 ≠ 902) (commands data) →
  cmd_on (__init__ power0 handlers0 load srv data) = None
  ∧ cmd_off (__init__ power0 handlers0 load srv data) = None.
Proof. intros H. exact (register_keeps_power_commands _ _ H). Qed.

(** A digit-only token stops the sequence: evaluating [time] raises
    [NameError], nothing sleeps and no later token is issued. *)
Lemma issue_digit_token net (d : string) (rest : list string) (self : t) (tr : list event) :
  isdigit d = true →
  issue net (d :: rest) self tr = (self, tr, Raised (NameError "time")).
Proof. intros Hd. cbn [issue]. unfold bind. by rewrite Hd. Qed.

(** C3: on the command sequence of the documentation's own example,
    ["off,200,off"], the token [200] does not suspend issuance for 200
    milliseconds and issuance does not continue: the first [off] is
    sent, then the call raises [NameError] for the name [time], which
    the module never imports, and the second [off] is never sent. *)
Theorem sendCommand_delay_token_raises :
  sendCommand bridge None "off,200,off" projector []
  = (projector,
     [Http (Get "http://raspberry.sfo.sensenet.nu:5001/write/b2Zm")],
     Raised (NameError "time")).
Proof. vm_compute. reflexivity. Qed.

(** C4, as amended: calling [setPower e] on a driver whose power flag is
    already [e] issues no command, leaves the driver as it is and
    returns [True]. *)
Theorem setPower_current_state_is_noop net (self : t) (enable : bool) (tr : list event) :
  power self = enable →
  setPower net enable self tr = (self, tr, Returned true).
Proof.
  intros Hp. unfold setPower, bind, get.
  by rewrite bool_decide_true.
Qed.

Lemma setPower_current_state_is_noop_witness :
  power projector = false
  ∧ setPower bridge false projector [] = (projector, [], Returned true).
Proof.
  split; [reflexivity|].
  apply (setPower_current_state_is_noop bridge projector false []).
  reflexivity.
Defined.

(** C4, as stated, fails: asked for "off" while off, the driver returns
    [True], which is not the state achieved ([False]). *)
Lemma setPower_returns_True_when_off :
  let '(self', _, returned) := setPower bridge false projector [] in
  returned = Returned true ∧ power self' = false
  ∧ returned ≠ Returned (power self').
Proof. vm_compute. split; [reflexivity|]. split; [reflexivity|]. discriminate. Qed.

(** C5, as amended: sending a command that is not in the table of IR
    commands prints the warning naming the command and makes no request
    to the bridge. *)
Theorem sendIr_unknown_command_warns net (self : t) (command : string) (tr : list event) :
  ircmds self !! command = None →
  ∃ o, sendIr net command self tr
       = (self, tr ++ [Print ("WARN: " +:+ command +:+ " is not a defined IR command")], o).
Proof.
  intros Hc. unfold sendIr, bind, get, getitem, contains.
  rewrite Hc. rewrite bool_decide_false by (intros [? ?]; discriminate).
  cbn. eauto.
Qed.

Lemma sendIr_unknown_command_warns_witness :
  ∃ o, sendIr bridge "volume-up" projector []
       = (projector, [] ++ [Print ("WARN: " +:+ "volume-up" +:+ " is not a defined IR command")], o).
Proof.
  apply (sendIr_unknown_command_warns bridge projector "volume-up" []).
  vm_compute. reflexivity.
Defined.

(** C5, as stated, fails: for the unregistered command [volume-up] the
    driver prints a line of text and then raises [KeyError], which
    nothing handles; no structured failure is produced. *)
Lemma sendIr_unknown_command_raises_KeyError :
  sendIr bridge "volume-up" projector []
  = (projector,
     [Print "WARN: volume-up is not a defined IR command"],
     Raised (KeyError "volume-up")).
Proof. vm_compute. reflexivity. Qed.

(** X10: what [setPower] does apart from the exceptions of the command
    sequence: whenever it returns, it returns [True] and the power flag
    holds the requested value; and for a driver whose config file
    defines neither a command of type 901 nor one of type 902 it always
    returns [True], stores the requested value and sends no IR command
    at all. *)
Theorem setPower_reports_success net (enable : bool) (tr : list event) :
  (∀ self self' tr' b,
     setPower net enable self tr = (self', tr', Returned b) →
     b = true ∧ power self' = enable)
  ∧ (∀ power0 handlers0 load srv data,
       Forall (λ e, c_type e.2 ≠ 901 ∧ c_type e.2 ≠ 902) (commands data) →
       let self := __init__ power0 handlers0 load srv data in
       setPower net enable self tr = (set_power self enable, tr, Returned true)).
Proof.
  split.
  - intros self self' tr' b. unfold setPower, bind, get, modify, ret.
    case_bool_decide as Hp.
    + intros [= <- <- <-]. done.
    + match goal with |- context [match ?c self tr with _ => _ end] =>
        destruct (c self tr) as [[s1 t1] [[]|e]] end.
      * intros [= <- <- <-]. done.
      * intros [= ].
  - intros power0 handlers0 load srv data Hd self.
    destruct (init_without_power_commands power0 handlers0 load srv data Hd)
      as [Hon Hoff]. fold self in Hon, Hoff.
    unfold setPower, bind, get, modify, ret.
    case_bool_decide as Hp.
    + by rewrite <- Hp, set_power_same.
    + rewrite Hon, Hoff. by destruct enable.
Qed.

Lemma setPower_reports_success_witness :
  let amp := __init__ false ∅ ir_codes "http://amp" mute_only_json in
  (true = true ∧ power projector = false)
  ∧ setPower bridge true amp [] = (set_power amp true, [], Returned true).
Proof.
  intros amp. split.
  - apply (proj1 (setPower_reports_success bridge false []) projector projector [] true).
    vm_compute. reflexivity.
  - apply (proj2 (setPower_reports_success bridge true []) false ∅ ir_codes "http://amp" mute_only_json).
    repeat constructor; cbn; discriminate.
Defined.

(** C8: with the documentation's own config the driver, powered on and
    asked to power off, does not return [True] and does not store the
    requested value: the first [off] is sent, the call raises
    [NameError] at the token [200], and the power flag stays on. *)
Theorem setPower_off_raises :
  setPower bridge false projector_on []
  = (projector_on,
     [Http (Get "http://raspberry.sfo.sensenet.nu:5001/write/b2Zm")],
     Raised (NameError "time")).
Proof. vm_compute. reflexivity. Qed.

End IRPlusProofs.

(** ** Computations that leave the trace alone *)
Module PyProofs.
Import Py.

Lemma silent_ret {S A} (a : A) : silent (ret a : M S A).
Proof. intros s t. unfold ret. eauto. Qed.

Lemma silent_raise {S A} (e : exn) : silent (raise e : M S A).
Proof. intros s t. unfold raise. eauto. Qed.

Lemma silent_get {S} : silent (get : M S S).
Proof. intros s t. unfold get. eauto. Qed.

Lemma silent_modify {S} (f : S → S) : silent (modify f).
Proof. intros s t. unfold modify. eauto. Qed.

Lemma silent_getitem {S V} (d : gmap string V) (k : string) :
  silent (getitem d k : M S V).
Proof. unfold getitem. destruct (d !! k); [apply silent_ret | apply silent_raise]. Qed.

Lemma silent_bind {S A B} (c : M S A) (k : A → M S B) :
  silent c → (∀ a, silent (k a)) → silent (bind c k).
Proof.
  intros Hc Hk s t. unfold bind.
  destruct (Hc s t) as (s1 & [a|e] & ->); [apply Hk | eauto].
Qed.

End PyProofs.

(** ** The Roku driver *)
Module RokuProofs.
Import Py DriverRoku Examples PyProofs.

Section WithDevice.
Variable net : network.
Variable int_of_string : string -> option Z.

Lemma silent_int (s : string) : silent (int int_of_string s).
Proof. unfold int. destruct (int_of_string s); [apply silent_ret | apply silent_raise]. Qed.

Lemma silent_lower_of (x : option string) : silent (lower_of x).
Proof. destruct x; [apply silent_ret | apply silent_raise]. Qed.

(** Reading the application list makes no request of its own. *)
Lemma scan_silent (tree : list element) :
  ∀ result, silent (scan int_of_string result tree).
Proof.
  induction tree as [|branch rest IH]; intros result; cbn [scan].
  { apply silent_ret. }
  repeat first
    [ apply IH
    | apply silent_ret | apply silent_raise | apply silent_modify
    | apply silent_getitem | apply silent_int | apply silent_lower_of
    | apply silent_bind; [|intros ?]
    | match goal with
      | |- silent (if ?b then _ else _) => destruct b
      end ].
Qed.

(** [getApps] contacts the device: one [GET] of [query/apps]. *)
Lemma getApps_queries_device (self : t) (tr : list event) :
  ∃ self' o,
    getApps net int_of_string self tr
    = (self', tr ++ [Http (Get (server self +:+ "query/apps"))], o).
Proof.
  unfold getApps, bind, get, send, fromstring, ret, raise.
  destruct (content _); eauto.
  destruct (negb _); eauto.
  apply scan_silent.
Qed.

(** C9, as amended: when [extras] has the key ["appid"] and not the
    key ["app"], [eventExtras] first asks the device for its
    application list, with one [GET] of [query/apps], and then always
    ends in an exception without any launch request: the [NameError]
    for the name [appid] whenever the query itself completed. *)
Theorem eventExtras_appid_never_launches
    (extras : gmap string string) (self : t) (tr : list event) :
  is_Some (extras !! "appid") →
  extras !! "app" = None →
  ∃ self' e,
    eventExtras net int_of_string extras self tr
    = (self', tr ++ [Http (Get (server self +:+ "query/apps"))], Raised e)
    ∧ (∀ s1 t1 found,
         getApps net int_of_string self tr = (s1, t1, Returned found) →
         e = NameError "appid").
Proof.
  intros Hid Happ.
  destruct (getApps_queries_device self tr) as (s1 & o & Hget).
  unfold eventExtras, bind. rewrite Hget.
  destruct o as [found|e].
  - unfold modify, contains.
    rewrite Happ, bool_decide_false by (intros [? ?]; discriminate).
    rewrite bool_decide_true by done.
    cbn. eexists _, _. split; [reflexivity|]. done.
  - eexists _, _. split; [reflexivity|]. intros ? ? ? [=].
Qed.

(** Every character is sent as a literal: comparing a string with an
    integer is never true. *)
Lemma key_of_literal (l : ascii) :
  key_of l = "Lit_" +:+ String l EmptyString.
Proof. reflexivity. Qed.

(** C10: for every text, [navTextInput] posts exactly one keypress per
    character, in order, each of the form ["Lit_"] followed by the
    character; no character is turned into [Enter] or [Backspace],
    carriage return, newline and backspace included. *)
Theorem navTextInput_sends_literals
    (zone : option string) (txt : string) (self : t) (tr : list event) :
  navTextInput net zone txt self tr
  = (self,
     tr ++ ((λ l, Http (Post (server self +:+ "keypress/"
                              +:+ "Lit_" +:+ String l EmptyString)))
            <$> list_ascii_of_string txt),
     Returned tt)
  ∧ length (list_ascii_of_string txt) = String.length txt
  ∧ (∀ l, key_of l ≠ "Enter" ∧ key_of l ≠ "Backspace")
  ∧ key_of "013" = "Lit_" +:+ String "013" EmptyString
  ∧ key_of "010" = "Lit_" +:+ String "010" EmptyString
  ∧ key_of "008" = "Lit_" +:+ String "008" EmptyString.
Proof.
  split; [|split; [|split; [|done]]].
  - revert tr. induction txt as [|l rest IH]; intros tr.
    + cbn. by rewrite app_nil_r.
    + cbn [navTextInput list_ascii_of_string fmap list_fmap].
      unfold bind at 1. unfold keypress, bind, get, send, ret.
      rewrite IH, key_of_literal, <- app_assoc. done.
  - induction txt as [|l rest IH]; cbn; congruence.
  - intros l. rewrite key_of_literal. split; discriminate.
Qed.

End WithDevice.

(** C9, as stated, fails: on [{"appid": "12"}] the [NameError] is raised
    only after the device was contacted, by the [GET] of [query/apps]
    that [getApps] makes. *)
Lemma eventExtras_appid_contacts_device :
  let '(_, trace, outcome) :=
    eventExtras roku_box decimal {[ "appid" := "12" ]} roku [] in
  trace = [Http (Get "http://roku.sfo.sensenet.nu:8060/query/apps")]
  ∧ outcome = Raised (NameError "appid").
Proof. vm_compute. split; reflexivity. Qed.

Lemma eventExtras_appid_never_launches_witness :
  ∃ self' e,
    eventExtras roku_box decimal {[ "appid" := "12" ]} roku []
    = (self', [] ++ [Http (Get (server roku +:+ "query/apps"))], Raised e)
    ∧ (∀ s1 t1 found,
         getApps roku_box decimal roku [] = (s1, t1, Returned found) →
         e = NameError "appid").
Proof.
  apply (eventExtras_appid_never_launches roku_box decimal {[ "appid" := "12" ]} roku []).
  - vm_compute. eauto.
  - vm_compute. reflexivity.
Defined.

End RokuProofs.

(** ** The static setup *)
Module SetupProofs.
Import SystemSetup.

(** Every driver a route of the routing table names is declared. *)
Lemma route_drivers_declared :
  undeclared DRIVER_TABLE (route_drivers ROUTING_TABLE) = [].
Proof. vm_compute. reflexivity. Qed.

(** So is every driver a zone refers to. *)
Lemma zone_drivers_declared :
  undeclared DRIVER_TABLE (driver_of <$> ["receiver:1"; "tv"; "projector"; "receiver:2"; "receiver:3"]) = [].
Proof. vm_compute. reflexivity. Qed.

(** C6: the scene table refers to a driver the driver table does not
    declare: scene [ps4] names the producing driver [ps4], and
    [DRIVER_TABLE] has no entry for it. It is the only scene that
    does. *)
Theorem ps4_scene_driver_undeclared :
  driver <$> SCENE_TABLE !! "ps4" = Some "ps4"
  ∧ DRIVER_TABLE !! "ps4" = None
  ∧ filter (λ kv, DRIVER_TABLE !! kv.2 = None) (scene_drivers SCENE_TABLE)
    = [("ps4", "ps4")].
Proof. vm_compute. done. Qed.

End SetupProofs.

(** ** The routing core *)
Module RouterProofs.
Import SystemSetup Router Examples.

(** *** Planning *)

(** A successful plan targets the zone and the sub-zone that
    [resolveTarget] found. *)
Lemma planActivation_target cat st zoneId sub sceneId p :
  planActivation cat st zoneId sub sceneId = Ok p →
  resolveTarget cat st zoneId sub = Ok ((target p).2, target_zone p)
  ∧ (target p).1 = zoneId.
Proof.
  unfold planActivation.
  destruct (resolveTarget cat st zoneId sub) as [[s z]|]; [|done].
  destruct (scenes cat !! sceneId) as [sc|]; [|done].
  destruct (capabilityClass _ _ _ _) as [c|]; [|done].
  destruct (routesFor cat sc c) as [|r0 candidates]; [done|].
  destruct (selectRoute _ _) as [r|]; [|done].
  destruct (List.find _ _); [done|].
  by intros [= <-].
Qed.

(** The plan for [netflix] on the [tv] sub-zone of [zone1], whatever is
    allocated. *)
Lemma plan_netflix_tv st :
  planActivation setup st "zone1" (Some "tv") "netflix"
  = Ok {| target := tv_zone;
          target_zone := {| z_name := "TV"; z_audio := Some "receiver:1";
                            z_video := Some "tv"; z_ux_hint := "" |};
          scene_id := "netflix";
          the_scene := {| driver := "roku"; driver_extras := Some "app=netflix";
                          name := "NetFlix";
                          description := "Watch movies and TV series";
                          audio := true; video := true;
                          ux_hint := "category=video,icon=netflix" |};
          satisfied := AudioVideo;
          chosen := [("tv", ["input-hdmi1"]); ("receiver", ["input-dvd"])];
          required := ["tv"; "receiver"; "roku"] |}.
Proof. vm_compute. reflexivity. Qed.

Lemma plan_netflix_projector st :
  planActivation setup st "zone1" (Some "projector") "netflix"
  = Ok {| target := projector_zone;
          target_zone := {| z_name := "Cinema"; z_audio := Some "receiver:1";
                            z_video := Some "projector"; z_ux_hint := "" |};
          scene_id := "netflix";
          the_scene := {| driver := "roku"; driver_extras := Some "app=netflix";
                          name := "NetFlix";
                          description := "Watch movies and TV series";
                          audio := true; video := true;
                          ux_hint := "category=video,icon=netflix" |};
          satisfied := AudioVideo;
          chosen := [("projector", []); ("receiver", ["input-dvd"]); ("screen", [])];
          required := ["projector"; "receiver"; "screen"; "roku"] |}.
Proof. vm_compute. reflexivity. Qed.

(** The scene [ps4] cannot be activated: its producing driver is not
    in the registry. *)
Lemma plan_ps4_unknown_driver st :
  planActivation setup st "zone1" (Some "tv") "ps4" = Err (UnknownDriver "ps4").
Proof. vm_compute. reflexivity. Qed.

(** C1: for scene [netflix] (producing driver [roku], audio and video)
    on sub-zone [tv] of [zone1] (audio driver [receiver:1], video driver
    [tv]), the class is audio+video, the route selected is the first
    candidate of [roku]'s audio+video list, [{tv: [input-hdmi1],
    receiver: [input-dvd]}], whose keys contain both designated drivers
    [receiver] and [tv], and the required drivers are [roku], [tv] and
    [receiver]. *)
Theorem netflix_on_tv_selects_first_route (st : allocation) :
  let first := [("tv", ["input-hdmi1"]); ("receiver", ["input-dvd"])] in
  ∃ sc z p,
    SCENE_TABLE !! "netflix" = Some sc
    ∧ driver sc = "roku" ∧ audio sc = true ∧ video sc = true
    ∧ resolveTarget setup st "zone1" (Some "tv") = Ok (Some "tv", z)
    ∧ z_audio z = Some "receiver:1" ∧ z_video z = Some "tv"
    ∧ designated z AudioVideo = ["receiver"; "tv"]
    ∧ (∃ others, routesFor setup sc AudioVideo = first :: others)
    ∧ "tv" ∈ first.*1 ∧ "receiver" ∈ first.*1
    ∧ selectRoute (routesFor setup sc AudioVideo) (designated z AudioVideo) = Some first
    ∧ planActivation setup st "zone1" (Some "tv") "netflix" = Ok p
    ∧ satisfied p = AudioVideo
    ∧ chosen p = first
    ∧ (list_to_set (required p) : gset string) = {[ "roku"; "tv"; "receiver" ]}.
Proof.
  intros first. eexists _, _, _.
  split; [vm_compute; reflexivity|].
  do 3 (split; [reflexivity|]).
  split; [vm_compute; reflexivity|].
  do 2 (split; [reflexivity|]).
  split; [vm_compute; reflexivity|].
  split; [eexists; vm_compute; reflexivity|].
  split; [set_solver|]. split; [set_solver|].
  split; [vm_compute; reflexivity|].
  split; [apply plan_netflix_tv|].
  do 2 (split; [reflexivity|]).
  vm_compute. reflexivity.
Qed.

(** Activated with nothing allocated and responsive drivers, the scene
    ends with [roku], [tv] and [receiver] held by the [tv] sub-zone and
    powered. *)
Lemma netflix_on_tv_from_idle :
  (activate setup responsive "zone1" (Some "tv") "netflix" false idle).1.1
  = Ok (AudioVideo, {[ "roku"; "tv"; "receiver" ]})
  ∧ powered watching_tv = {[ "roku"; "tv"; "receiver" ]}
  ∧ (held <$> claims watching_tv !! tv_zone) = Some {[ "roku"; "tv"; "receiver" ]}
  ∧ active_subzone watching_tv !! "zone1" = Some "tv".
Proof. vm_compute. done. Qed.

(** C2: when another zone holds [receiver], the [tv] sub-zone of [zone1]
    first among them, and no other zone holds [projector], activating
    [netflix] on sub-zone [projector] without override fails with
    [DriverConflict] for [receiver] owned by the [tv] sub-zone, changes
    nothing in the allocation table and calls no driver; [receiver] is
    a key of both candidate audio+video routes of the scene's driver. *)
Theorem netflix_on_projector_conflicts responds (st : allocation) (more : list zone_ref) :
  other_owners st projector_zone "projector" = [] →
  other_owners st projector_zone "receiver" = tv_zone :: more →
  activate setup responds "zone1" (Some "projector") "netflix" false st
  = (Err (DriverConflict "receiver" tv_zone), st, [])
  ∧ ROUTING_TABLE !! "roku" ≫= (λ classes, classes !! "audio+video")
    = Some [ [("tv", ["input-hdmi1"]); ("receiver", ["input-dvd"])];
             [("projector", []); ("receiver", ["input-dvd"]); ("screen", [])] ]
  ∧ Forall (λ r : route, "receiver" ∈ r.*1)
           (default [] (ROUTING_TABLE !! "roku" ≫= (λ classes, classes !! "audio+video"))).
Proof.
  intros Hprojector Hreceiver. split; [|split].
  - unfold activate. rewrite plan_netflix_projector.
    unfold commit. cbn [firstConflict target required].
    by rewrite Hprojector, Hreceiver.
  - vm_compute. reflexivity.
  - replace (default [] _) with
      [ [("tv", ["input-hdmi1"]); ("receiver", ["input-dvd"])];
        [("projector", []); ("receiver", ["input-dvd"]); ("screen", @nil string)] ]
      by (vm_compute; reflexivity).
    repeat constructor; set_solver.
Qed.

Lemma netflix_on_projector_conflicts_witness :
  activate setup responsive "zone1" (Some "projector") "netflix" false watching_tv
  = (Err (DriverConflict "receiver" tv_zone), watching_tv, []).
Proof.
  apply (netflix_on_projector_conflicts responsive watching_tv []).
  - vm_compute. reflexivity.
  - vm_compute. reflexivity.
Defined.

(** *** Resolution of virtual zones *)

Lemma resolveConcreteZone_active cat st z nm dflt subs ux s sz :
  zones cat !! z = Some (Virtual nm dflt subs ux) →
  active_subzone st !! z = Some s →
  subs !! s = Some sz →
  resolveConcreteZone cat st z = Ok (Some s, sz).
Proof. intros Hz Ha Hs. unfold resolveConcreteZone. by rewrite Hz, Ha, Hs. Qed.

Lemma resolveConcreteZone_default cat st z nm d subs ux sz :
  zones cat !! z = Some (Virtual nm (Some d) subs ux) →
  active_subzone st !! z = None →
  subs !! d = Some sz →
  resolveConcreteZone cat st z = Ok (Some d, sz).
Proof. intros Hz Ha Hs. unfold resolveConcreteZone. by rewrite Hz, Ha, Hs. Qed.

Lemma resolveConcreteZone_NoDefaultSubzone cat st z z' :
  resolveConcreteZone cat st z = Err (NoDefaultSubzone z')
  ↔ z' = z ∧ active_subzone st !! z = None
    ∧ ∃ nm subs ux, zones cat !! z = Some (Virtual nm None subs ux).
Proof.
  unfold resolveConcreteZone. split.
  - destruct (zones cat !! z) as [[sz|nm dflt subs ux]|]; [done| |done].
    destruct (active_subzone st !! z) as [s|].
    { destruct (subs !! s); done. }
    destruct dflt as [d|].
    { destruct (subs !! d); done. }
    intros [= <-]. eauto 10.
  - intros (-> & Ha & nm & subs & ux & Hz). by rewrite Hz, Ha.
Qed.

(** While sub-zone [s] of [z] is recorded as active, a request for [z]
    that names no sub-zone, or names [s], can only resolve to [s]. *)
Lemma resolveTarget_active cat st z sub s s' sz :
  active_subzone st !! z = Some s →
  sub = None ∨ sub = Some s →
  resolveTarget cat st z sub = Ok (s', sz) →
  s' = None ∨ s' = Some s.
Proof.
  intros Ha [-> | ->]; cbn [resolveTarget].
  - unfold resolveConcreteZone.
    destruct (zones cat !! z) as [[?|nm dflt subs ux]|]; [|rewrite Ha|done].
    + intros [= <- _]. by left.
    + destruct (subs !! s); [|done]. intros [= <- _]. by right.
  - destruct (zones cat !! z) as [[?|nm dflt subs ux]|]; [done| |done].
    destruct (subs !! s); [|done]. intros [= <- _]. by right.
Qed.

(** An activation either fails and leaves the table alone, or records
    the sub-zone of its target. *)
Lemma activate_records cat responds z sub sc ov st :
  (∃ f, (activate cat responds z sub sc ov st).1 = (Err f, st))
  ∨ (∃ p, planActivation cat st z sub sc = Ok p
          ∧ active_subzone (activate cat responds z sub sc ov st).1.2
            = record_subzone (target p) (active_subzone st)).
Proof.
  unfold activate.
  destruct (planActivation cat st z sub sc) as [p|f] eqn:Hplan; [|left; eauto].
  unfold commit.
  destruct (if ov then None else firstConflict st (target p) (required p))
    as [[d owner]|]; [left; eauto|].
  right. exists p. split; [done|].
  by destruct (execute _ _) as [made failed].
Qed.

Lemma record_subzone_keeps (t' : zone_ref) (a : gmap string string) (z s : string) :
  a !! z = Some s →
  t'.1 ≠ z ∨ t'.2 = None ∨ t'.2 = Some s →
  record_subzone t' a !! z = Some s.
Proof.
  intros Ha. unfold record_subzone. destruct t' as [z' [s'|]]; cbn; [|done].
  intros [Hne | [? | [= ->]]]; [|done|].
  - by rewrite lookup_insert_ne.
  - destruct (decide (z' = z)) as [->|Hne].
    + by rewrite lookup_insert_eq.
    + by rewrite lookup_insert_ne.
Qed.

(** A request that keeps the sub-zone leaves the record of the active
    sub-zone of [z] as it is. *)
Lemma serve_keeps cat responds st z s rq :
  active_subzone st !! z = Some s →
  keeps z s rq →
  active_subzone (serve cat responds st rq) !! z = Some s.
Proof.
  intros Ha Hk. destruct rq as [z' sub sc ov | z' sub]; cbn [serve keeps] in *.
  - destruct (activate_records cat responds z' sub sc ov st)
      as [(f & ->) | (p & Hplan & ->)]; [done|].
    apply planActivation_target in Hplan as [Hres Hz'].
    apply record_subzone_keeps; [done|].
    destruct (decide (z' = z)) as [->|Hne]; [|left; congruence].
    right. destruct Hk as [?|Hsub]; [done|].
    by apply (resolveTarget_active _ _ _ _ _ _ _ Ha Hsub Hres).
  - unfold deactivate; cbn. destruct sub as [s'|].
    + case_bool_decide; [by rewrite lookup_delete_ne|done].
    + by rewrite lookup_delete_ne.
Qed.

Lemma run_keeps cat responds z s rqs :
  ∀ st,
    active_subzone st !! z = Some s →
    Forall (keeps z s) rqs →
    active_subzone (foldl (serve cat responds) st rqs) !! z = Some s.
Proof.
  induction rqs as [|rq rqs IH]; intros st Ha Hk; [done|].
  apply Forall_cons in Hk as [Hrq Hk]. cbn [foldl].
  apply IH; [|done]. by apply serve_keeps.
Qed.

(** C7: [zone1] declares the default sub-zone [tv], a declared sub-zone,
    and resolves to it when nothing is active. For every catalog: a
    virtual zone with no active sub-zone resolves to its declared
    default; a successful activation of a sub-zone records it as
    active; while a sub-zone is recorded, resolution yields it, through
    every run of requests that neither activate a different sub-zone of
    the zone nor deactivate the zone; deactivating the zone clears the
    record; and resolution fails with [NoDefaultSubzone] exactly when
    the zone is virtual with neither an active nor a default
    sub-zone. *)
Theorem virtual_zone_resolution (cat : catalog) (responds : action → option failure) :
  (∃ nm subs ux sz,
     ZONE_TABLE !! "zone1" = Some (Virtual nm (Some "tv") subs ux)
     ∧ subs !! "tv" = Some sz
     ∧ resolveConcreteZone setup idle "zone1" = Ok (Some "tv", sz))
  ∧ (∀ st z nm d subs ux sz,
       zones cat !! z = Some (Virtual nm (Some d) subs ux) →
       active_subzone st !! z = None →
       subs !! d = Some sz →
       resolveConcreteZone cat st z = Ok (Some d, sz))
  ∧ (∀ st z s sc ov granted st' log,
       activate cat responds z (Some s) sc ov st = (Ok granted, st', log) →
       active_subzone st' !! z = Some s)
  ∧ (∀ st z nm dflt subs ux s sz rqs,
       zones cat !! z = Some (Virtual nm dflt subs ux) →
       active_subzone st !! z = Some s →
       subs !! s = Some sz →
       Forall (keeps z s) rqs →
       resolveConcreteZone cat (foldl (serve cat responds) st rqs) z = Ok (Some s, sz))
  ∧ (∀ st z, active_subzone (deactivate z None st).1 !! z = None)
  ∧ (∀ st z z',
       resolveConcreteZone cat st z = Err (NoDefaultSubzone z')
       ↔ z' = z ∧ active_subzone st !! z = None
         ∧ ∃ nm subs ux, zones cat !! z = Some (Virtual nm None subs ux)).
Proof.
  split; [|split; [|split; [|split; [|split]]]].
  - eexists _, _, _, _. split; [vm_compute; reflexivity|].
    split; vm_compute; reflexivity.
  - intros. by eapply resolveConcreteZone_default.
  - intros st z s sc ov granted st' log Hact.
    destruct (activate_records cat responds z (Some s) sc ov st)
      as [(f & Hf) | (p & Hplan & Hrec)]; rewrite Hact in *; cbn in *.
    + discriminate.
    + apply planActivation_target in Hplan as [Hres Hz].
      rewrite Hrec. unfold record_subzone.
      cbn [resolveTarget] in Hres.
      destruct (zones cat !! z) as [[?|nm dflt subs ux]|]; [done| |done].
      destruct (subs !! s); [|done].
      destruct (target p) as [zp sp]; cbn in *.
      injection Hres as <- _. subst zp.
      by rewrite lookup_insert_eq.
  - intros st z nm dflt subs ux s sz rqs Hz Ha Hs Hk.
    eapply resolveConcreteZone_active; [done| |done].
    by apply run_keeps.
  - intros st z. unfold deactivate; cbn. by rewrite lookup_delete_eq.
  - intros. apply resolveConcreteZone_NoDefaultSubzone.
Qed.

Lemma virtual_zone_resolution_witness :
  resolveConcreteZone setup idle "zone1" = Ok (Some "tv", tv_subzone)
  ∧ active_subzone watching_tv !! "zone1" = Some "tv"
  ∧ resolveConcreteZone setup
      (foldl (serve setup responsive) watching_tv
         [Activate "zone2" None "spotify" false;
          Activate "zone1" None "amazon" false;
          Deactivate "zone3" None])
      "zone1"
    = Ok (Some "tv", tv_subzone)
  ∧ resolveConcreteZone setup idle "zone1" ≠ Err (NoDefaultSubzone "zone1").
Proof.
  pose proof (virtual_zone_resolution setup responsive)
    as (_ & Hdefault & Hrecord & Hkeep & _ & Hnone).
  split; [|split; [|split]].
  - eapply (Hdefault idle "zone1"); vm_compute; reflexivity.
  - eapply (Hrecord idle "zone1" "tv" "netflix" false _ watching_tv).
    vm_compute. reflexivity.
  - eapply (Hkeep watching_tv "zone1").
    + vm_compute. reflexivity.
    + vm_compute. reflexivity.
    + vm_compute. reflexivity.
    + repeat (apply Forall_cons; split); [| | |constructor]; cbn.
      * left. discriminate.
      * right. left. reflexivity.
      * discriminate.
  - intros Hfail. apply Hnone in Hfail as (_ & _ & nm & subs & ux & Hzone).
    vm_compute in Hzone. discriminate.
Defined.

End RouterProofs.

(** ** More on the IR+ driver *)
Module IRPlusMore.
Import Py DriverIRPlus Examples MoreExamples Trace.

(** *** Construction *)

Lemma register_other (l : list (string * command)) (self : t) (cmd : string) :
  cmd ∉ l.*1 →
  COMMAND_HANDLER (foldl register self l) !! cmd = COMMAND_HANDLER self !! cmd.
Proof.
  revert self. induction l as [|e l IH]; intros self Hnot; [done|].
  cbn [foldl]. rewrite IH by set_solver.
  unfold register; cbn. apply lookup_insert_ne. set_solver.
Qed.

Lemma register_member (l : list (string * command)) (self : t) (cmd : string) :
  cmd ∈ l.*1 →
  is_Some (COMMAND_HANDLER (foldl register self l) !! cmd).
Proof.
  revert self. induction l as [|e l IH]; intros self Hin; [set_solver|].
  cbn [foldl]. destruct (decide (cmd ∈ l.*1)) as [Hl|Hl]; [by apply IH|].
  rewrite register_other by done.
  assert (cmd = e.1) as -> by set_solver.
  unfold register; cbn. rewrite lookup_insert_eq. eauto.
Qed.

(** X1: when the config file names each command once, [__init__]
    registers every one of its commands in [COMMAND_HANDLER], taking no
    argument, with its type, and with the command's own name standing in
    for a missing sequence, name or description. *)
Theorem init_registers_commands power0 handlers0 load srv data (cmd : string) (c : command) :
  NoDup (commands data).*1 →
  (cmd, c) ∈ commands data →
  COMMAND_HANDLER (__init__ power0 handlers0 load srv data) !! cmd
  = Some {| arguments := 0;
            extras := default cmd (c_sequence c);
            name := default cmd (c_name c);
            description := default cmd (c_description c);
            type := c_type c |}.
Proof.
  unfold __init__.
  generalize ({| power := power0; server := srv; cmd_on := None; cmd_off := None;
                 ircmds := load (file data); COMMAND_HANDLER := handlers0 |}).
  induction (commands data) as [|e l IH]; intros self Hdup Hin; [set_solver|].
  cbn [fmap list_fmap] in Hdup. apply NoDup_cons in Hdup as [Hfresh Hdup].
  cbn [foldl]. apply elem_of_cons in Hin as [<-|Hin].
  - rewrite register_other by done. unfold register; cbn. by rewrite lookup_insert_eq.
  - by apply IH.
Qed.

Lemma init_registers_commands_witness :
  COMMAND_HANDLER projector !! "off"
  = Some {| arguments := 0; extras := "off,200,off"; name := "off";
            description := "off"; type := 902 |}.
Proof.
  apply (init_registers_commands false ∅ ir_codes (SystemSetup.AV +:+ ":5001") projector_json
           "off" {| c_type := 902; c_sequence := Some "off,200,off";
                    c_name := None; c_description := None |}).
  - vm_compute. repeat constructor; set_solver.
  - vm_compute. set_solver.
Defined.

(** Entries of the table under other names are kept. *)
Lemma init_keeps_other_handlers power0 handlers0 load srv data (cmd : string) :
  cmd ∉ (commands data).*1 →
  COMMAND_HANDLER (__init__ power0 handlers0 load srv data) !! cmd = handlers0 !! cmd.
Proof. intros Hnot. unfold __init__. by rewrite register_other. Qed.

Lemma last_power_command (ty : Z) (l : list (string * command)) (self : t) :
  let marked := (filter (λ e : string * command, c_type e.2 = ty) l).*1 in
  (ty = 901 → cmd_on (foldl register self l) = from_option Some (cmd_on self) (last marked))
  ∧ (ty = 902 → cmd_off (foldl register self l) = from_option Some (cmd_off self) (last marked)).
Proof.
  revert self. induction l as [|e l IH]; intros self; [done|].
  cbn [foldl]. destruct (IH (register self e)) as [IHon IHoff].
  cbn zeta. rewrite filter_cons.
  split; intros ->.
  - rewrite IHon by done. unfold register; cbn [cmd_on].
    case_decide as Hty; case_bool_decide; try done.
    cbn [fmap list_fmap]. rewrite last_cons. by destruct (last _).
  - rewrite IHoff by done. unfold register; cbn [cmd_off].
    case_decide as Hty; case_bool_decide; try done.
    cbn [fmap list_fmap]. rewrite last_cons. by destruct (last _).
Qed.

(** X2: after [__init__], [cmd_on] is the last command of type 901 the
    loop visited and [cmd_off] the last of type 902 ([None] when the
    config has none); whichever is set is a registered command, so the
    lookups [COMMAND_HANDLER[cmd_on]] and [COMMAND_HANDLER[cmd_off]] of
    [setPower] cannot miss. *)
Theorem init_power_commands power0 handlers0 load srv data :
  let self := __init__ power0 handlers0 load srv data in
  cmd_on self = last (filter (λ e : string * command, c_type e.2 = 901) (commands data)).*1
  ∧ cmd_off self = last (filter (λ e : string * command, c_type e.2 = 902) (commands data)).*1
  ∧ (∀ c, cmd_on self = Some c ∨ cmd_off self = Some c →
          is_Some (COMMAND_HANDLER self !! c)).
Proof.
  intros self. unfold self, __init__.
  set (s0 := {| power := power0; server := srv; cmd_on := None; cmd_off := None;
                ircmds := load (file data); COMMAND_HANDLER := handlers0 |}).
  destruct (last_power_command 901 (commands data) s0) as [Hon _].
  destruct (last_power_command 902 (commands data) s0) as [_ Hoff].
  specialize (Hon eq_refl). specialize (Hoff eq_refl). cbn zeta in Hon, Hoff.
  assert (∀ o : option string, from_option Some None o = o) as Hid by (by intros []).
  rewrite Hid in Hon, Hoff. split; [done|]. split; [done|].
  intros c Hc. apply register_member.
  destruct Hc as [Hc|Hc]; [rewrite Hon in Hc | rewrite Hoff in Hc];
    apply last_Some_elem_of in Hc;
    apply list_elem_of_fmap in Hc as (e & -> & He);
    apply list_elem_of_filter in He as [_ He];
    apply list_elem_of_fmap; eauto.
Qed.

Lemma init_power_commands_witness :
  cmd_on (__init__ false ∅ ir_codes "http://screen" two_on_json) = Some "down"
  ∧ cmd_off (__init__ false ∅ ir_codes "http://screen" two_on_json) = None.
Proof.
  pose proof (init_power_commands false ∅ ir_codes "http://screen" two_on_json) as H.
  cbv zeta in H. destruct H as (Hon & Hoff & _).
  split; [rewrite Hon | rewrite Hoff]; vm_compute; reflexivity.
Defined.

(** *** Computations that only append *)

Lemma appends_ret {S A} (P : event → Prop) (a : A) : appends P (ret a : M S A).
Proof. intros s t. exists [], (Returned a). by rewrite app_nil_r. Qed.

Lemma appends_raise {S A} (P : event → Prop) (e : exn) : appends P (raise e : M S A).
Proof. intros s t. exists [], (Raised e). by rewrite app_nil_r. Qed.

Lemma appends_get {S} (P : event → Prop) : appends P (get : M S S).
Proof. intros s t. exists [], (Returned s). by rewrite app_nil_r. Qed.

Lemma appends_emit {S} (P : event → Prop) (ev : event) : P ev → appends P (emit ev : M S unit).
Proof. intros Hev s t. exists [ev], (Returned tt). split; [done|]. by constructor. Qed.

Lemma appends_send {S} (P : event → Prop) net (rq : request) :
  P (Http rq) → appends P (send net rq : M S response).
Proof. intros Hev s t. exists [Http rq], (Returned (net t rq)). split; [done|]. by constructor. Qed.

Lemma appends_getitem {S V} (P : event → Prop) (d : gmap string V) (k : string) :
  appends P (getitem d k : M S V).
Proof. unfold getitem. destruct (d !! k); [apply appends_ret | apply appends_raise]. Qed.

Lemma appends_json {S} (P : event → Prop) (r : response) : appends P (json r : M S unit).
Proof. unfold json. destruct (content r); first [apply appends_ret | apply appends_raise]. Qed.

Lemma appends_bind {S A B} (P : event → Prop) (c : M S A) (k : A → M S B) :
  appends P c → (∀ a, appends P (k a)) → appends P (bind c k).
Proof.
  intros Hc Hk s t. unfold bind.
  destruct (Hc s t) as (t1 & [a|e] & -> & H1).
  - destruct (Hk a s (t ++ t1)) as (t2 & o & -> & H2).
    exists (t1 ++ t2), o. rewrite app_assoc. split; [done|]. by apply Forall_app.
  - eauto.
Qed.

(** The name [time] is unbound in the module. *)
Lemma time_unbound {S} : (global globals "time" : M S object) = raise (NameError "time").
Proof. vm_compute. reflexivity. Qed.

Section WithBridge.
Variable net : network.

Lemma sendIr_appends (command : string) :
  appends (λ ev, ¬ is_sleep ev) (sendIr net command).
Proof.
  unfold sendIr.
  repeat first
    [ apply appends_ret | apply appends_raise | apply appends_get
    | apply appends_getitem | apply appends_json
    | apply appends_emit; cbn; tauto | apply appends_send; cbn; tauto
    | apply appends_bind; [|intros ?]
    | match goal with |- appends _ (if ?b then _ else _) => destruct b end ].
Qed.

Lemma issue_appends (seq : list string) :
  appends (λ ev, ¬ is_sleep ev) (issue net seq).
Proof.
  induction seq as [|cmd rest IH]; cbn [issue]; [apply appends_ret|].
  apply appends_bind; [|done].
  destruct (isdigit cmd).
  - rewrite time_unbound. intros s t. exists [], (Raised (NameError "time")).
    by rewrite app_nil_r.
  - apply appends_bind; [apply sendIr_appends|]. intros ?. apply appends_ret.
Qed.

(** X3: whatever the command string and whatever the bridge answers,
    [sendCommand] leaves the driver as it is, only adds to the trace,
    and never sleeps. *)
Theorem sendCommand_never_sleeps (zone : option string) (command : string)
    (self : t) (tr : list event) :
  ∃ tr' o,
    sendCommand net zone command self tr = (self, tr ++ tr', o)
    ∧ Forall (λ ev, ¬ is_sleep ev) tr'.
Proof. apply issue_appends. Qed.

Lemma issue_digit_raises (seq : list string) (self : t) (tr : list event) :
  Exists (λ d, isdigit d = true) seq →
  ∃ tr' e, issue net seq self tr = (self, tr ++ tr', Raised e).
Proof.
  revert tr. induction seq as [|cmd rest IH]; intros tr Hex.
  { by apply Exists_nil in Hex. }
  cbn [issue]. unfold bind at 1.
  destruct (isdigit cmd) eqn:Hd.
  - rewrite time_unbound. cbn. exists [], (NameError "time"). by rewrite app_nil_r.
  - apply Exists_cons in Hex as [Hex|Hex]; [congruence|].
    unfold bind at 1.
    destruct (sendIr_appends cmd self tr) as (t1 & [b|e] & -> & _); cbn.
    + destruct (IH (tr ++ t1) Hex) as (t2 & e & ->).
      exists (t1 ++ t2), e. by rewrite app_assoc.
    + eauto.
Qed.

(** X4: a command string with a digit-only token anywhere in it never
    runs to its end: [sendCommand] ends in an exception, with the driver
    unchanged. *)
Theorem sendCommand_digit_token_raises (zone : option string) (command d : string)
    (self : t) (tr : list event) :
  d ∈ split "," command →
  isdigit d = true →
  ∃ tr' e, sendCommand net zone command self tr = (self, tr ++ tr', Raised e).
Proof.
  intros Hin Hd. apply issue_digit_raises. apply Exists_exists. eauto.
Qed.

Lemma sendIr_defined (command ir : string) (self : t) (tr : list event) :
  (∀ t rq, status_code (net t rq) = 200 → content (net t rq) = Json) →
  ircmds self !! command = Some ir →
  ∃ tr' b,
    sendIr net command self tr = (self, tr ++ tr', Returned b)
    ∧ requests tr' = [Get (server self +:+ "/write/" +:+ ir)].
Proof.
  intros Hnet Hir. unfold sendIr, bind, get, getitem, contains, send, emit, json, ret.
  rewrite Hir, bool_decide_true by eauto. cbn.
  case_bool_decide as Hst.
  - eexists [_; _], _. rewrite <- app_assoc. split; reflexivity.
  - rewrite Hnet by (destruct (decide (status_code (net tr (Get (server self +:+ "/write/" +:+ ir))) = 200)); done).
    eexists [_], _. split; reflexivity.
Qed.

Lemma issue_sends_each (seq : list string) (self : t) :
  (∀ t rq, status_code (net t rq) = 200 → content (net t rq) = Json) →
  Forall (λ c, isdigit c = false ∧ is_Some (ircmds self !! c)) seq →
  ∀ tr, ∃ tr',
    issue net seq self tr = (self, tr ++ tr', Returned tt)
    ∧ requests tr'
      = (λ c, Get (server self +:+ "/write/" +:+ default "" (ircmds self !! c))) <$> seq.
Proof.
  intros Hnet Hseq. induction Hseq as [|cmd rest [Hd [ir Hir]] _ IH]; intros tr.
  { exists []. by rewrite app_nil_r. }
  cbn [issue]. unfold bind at 1. rewrite Hd. unfold bind at 1.
  destruct (sendIr_defined cmd ir self tr Hnet Hir) as (t1 & b & -> & Hr1). cbn.
  destruct (IH (tr ++ t1)) as (t2 & -> & Hr2).
  exists (t1 ++ t2). rewrite app_assoc. split; [done|].
  unfold requests in *. rewrite omap_app, Hr1, Hr2. cbn. by rewrite Hir.
Qed.

(** X5: when no token is digit-only and every token is a defined IR
    command, [sendCommand] returns after exactly one [GET] of
    [server/write/code] per token, in the order of the tokens; a request
    the bridge refuses (a status other than 200) does not stop the
    sequence. The bridge is only assumed to send JSON with a status
    200. *)
Theorem sendCommand_sends_each_token (zone : option string) (command : string)
    (self : t) (tr : list event) :
  (∀ t rq, status_code (net t rq) = 200 → content (net t rq) = Json) →
  Forall (λ c, isdigit c = false ∧ is_Some (ircmds self !! c)) (split "," command) →
  ∃ tr',
    sendCommand net zone command self tr = (self, tr ++ tr', Returned tt)
    ∧ requests tr'
      = (λ c, Get (server self +:+ "/write/" +:+ default "" (ircmds self !! c)))
        <$> split "," command.
Proof. intros Hnet Hseq. by apply issue_sends_each. Qed.

(** X6: the empty command string is one token, the empty name: unless
    the IR command file defines a command of that name, [sendCommand]
    prints the warning and raises [KeyError] without any request. *)
Theorem sendCommand_empty_string (zone : option string) (self : t) (tr : list event) :
  ircmds self !! "" = None →
  sendCommand net zone "" self tr
  = (self, tr ++ [Print "WARN:  is not a defined IR command"], Raised (KeyError "")).
Proof.
  intros Hnone. unfold sendCommand. cbn [split issue isdigit].
  unfold bind, sendIr, bind, get, getitem, contains, emit.
  rewrite Hnone, bool_decide_false by (intros [? ?]; discriminate).
  reflexivity.
Qed.

(** X7: [sendIr] returns only for a defined IR command, and never
    returns [True]: it returns [False] exactly when the bridge answered
    with a status other than 200, and [None] when it answered 200 with a
    JSON body. *)
Theorem sendIr_return_value (command : string) (self self' : t) (tr tr' : list event)
    (r : option bool) :
  sendIr net command self tr = (self', tr', Returned r) →
  ∃ ir,
    ircmds self !! command = Some ir
    ∧ ((r = Some false
        ∧ status_code (net tr (Get (server self +:+ "/write/" +:+ ir))) ≠ 200)
       ∨ (r = None
          ∧ status_code (net tr (Get (server self +:+ "/write/" +:+ ir))) = 200
          ∧ content (net tr (Get (server self +:+ "/write/" +:+ ir))) = Json)).
Proof.
  unfold sendIr, bind, get, getitem, contains, send, emit, json, ret, raise.
  destruct (ircmds self !! command) as [ir|] eqn:Hir; cbn; [|done].
  case_bool_decide as Hst.
  - intros [= _ _ <-]. exists ir. split; [done|]. by left.
  - destruct (content _) eqn:Hc; [|done|done].
    intros [= _ _ <-]. exists ir. split; [done|]. right.
    split; [done|]. split; [|done].
    by destruct (decide (status_code (net tr (Get (server self +:+ "/write/" +:+ ir))) = 200)).
Qed.

(** What is sent does not depend on the power flag. *)
Lemma sendIr_power_irrelevant (command : string) (self : t) (b : bool) (tr : list event) :
  sendIr net command (set_power self b) tr
  = (set_power self b, (sendIr net command self tr).1.2, (sendIr net command self tr).2).
Proof.
  unfold sendIr, bind, get, getitem, contains, send, emit, json, ret, raise. cbn.
  destruct (ircmds self !! command) as [ir|]; cbn.
  - case_bool_decide; [done|]. by destruct (content _).
  - done.
Qed.

Lemma issue_power_irrelevant (seq : list string) (self : t) (b : bool) :
  ∀ tr s' t' o,
    issue net seq self tr = (s', t', o) →
    issue net seq (set_power self b) tr = (set_power self b, t', o).
Proof.
  induction seq as [|cmd rest IH]; intros tr s' t' o; cbn [issue].
  { by intros [= <- <- <-]. }
  unfold bind. destruct (isdigit cmd).
  - rewrite !time_unbound. by intros [= <- <- <-].
  - rewrite sendIr_power_irrelevant.
    destruct (sendIr_appends cmd self tr) as (t1 & [r|e] & -> & _); cbn.
    + apply IH.
    + by intros [= <- <- <-].
Qed.

(** X8: on a driver that is off and has no power-on command,
    [setPower(True)] sends to the bridge exactly what [setPower(False)]
    sends when the driver is on, the power-off sequence if there is one,
    and ends the same way. *)
Theorem setPower_on_without_on_command (self : t) (tr : list event) :
  cmd_on self = None →
  power self = false →
  (setPower net true self tr).1.2 = (setPower net false (set_power self true) tr).1.2
  ∧ (setPower net true self tr).2 = (setPower net false (set_power self true) tr).2.
Proof.
  intros Hon Hp. unfold setPower, bind, get. cbn [power set_power cmd_on cmd_off COMMAND_HANDLER].
  rewrite Hp, Hon, !bool_decide_false by done.
  destruct (cmd_off self) as [off|]; [|done].
  unfold getitem. destruct (COMMAND_HANDLER self !! off) as [h|]; [|done].
  unfold bind, ret, raise, sendCommand.
  destruct (issue net (split "," (extras h)) self tr) as [[s1 t1] o] eqn:Hissue.
  rewrite (issue_power_irrelevant _ _ true _ _ _ _ Hissue).
  by destruct o.
Qed.

(** X9: once [setPower(e)] has returned, calling [setPower(e)] again
    sends nothing, changes nothing and returns [True]. *)
Theorem setPower_twice (enable : bool) (self self' : t) (tr tr' tr'' : list event) (b : bool) :
  setPower net enable self tr = (self', tr', Returned b) →
  setPower net enable self' tr'' = (self', tr'', Returned true).
Proof.
  intros Hfirst.
  assert (power self' = enable) as Hp.
  { revert Hfirst. unfold setPower, bind, get, modify, ret.
    case_bool_decide as Hp.
    - by intros [= <- _ _].
    - match goal with |- context [match ?c self tr with _ => _ end] =>
        destruct (c self tr) as [[s1 t1] [[]|e]] end; [|done].
      by intros [= <- _ _]. }
  unfold setPower, bind, get. by rewrite bool_decide_true.
Qed.

End WithBridge.

Lemma sendIr_return_value_witness :
  ∃ ir,
    ircmds projector !! "on" = Some ir
    ∧ ((Some false = Some false
        ∧ status_code (broken_bridge [] (Get (server projector +:+ "/write/" +:+ ir))) ≠ 200)
       ∨ (Some false = None
          ∧ status_code (broken_bridge [] (Get (server projector +:+ "/write/" +:+ ir))) = 200
          ∧ content (broken_bridge [] (Get (server projector +:+ "/write/" +:+ ir))) = Json)).
Proof.
  eapply (sendIr_return_value broken_bridge "on" projector _ [] _ (Some false)).
  vm_compute. reflexivity.
Defined.

Lemma sendCommand_digit_token_raises_witness :
  ∃ tr' e, sendCommand bridge None "on,50" projector [] = (projector, [] ++ tr', Raised e).
Proof.
  apply (sendCommand_digit_token_raises bridge None "on,50" "50" projector []).
  - vm_compute. apply list_elem_of_In. right. left. reflexivity.
  - reflexivity.
Defined.

Lemma sendCommand_sends_each_token_witness :
  ∃ tr',
    sendCommand broken_bridge None "on,off,on" projector [] = (projector, [] ++ tr', Returned tt)
    ∧ requests tr'
      = (λ c, Get (server projector +:+ "/write/" +:+ default "" (ircmds projector !! c)))
        <$> split "," "on,off,on".
Proof.
  apply (sendCommand_sends_each_token broken_bridge None "on,off,on" projector []).
  - intros t rq. vm_compute. discriminate.
  - vm_compute. repeat constructor; eauto.
Defined.

Lemma sendCommand_empty_string_witness :
  sendCommand bridge None "" projector []
  = (projector, [] ++ [Print "WARN:  is not a defined IR command"], Raised (KeyError "")).
Proof.
  apply (sendCommand_empty_string bridge None projector []).
  vm_compute. reflexivity.
Defined.

Lemma setPower_on_without_on_command_witness :
  (setPower bridge true fan []).1.2 = (setPower bridge false (set_power fan true) []).1.2
  ∧ (setPower bridge true fan []).2 = (setPower bridge false (set_power fan true) []).2.
Proof.
  apply (setPower_on_without_on_command bridge fan []); vm_compute; reflexivity.
Defined.

Lemma setPower_twice_witness :
  setPower bridge true (set_power projector true) [Http (Get "http://raspberry.sfo.sensenet.nu:5001/write/b24=")]
  = (set_power projector true, [Http (Get "http://raspberry.sfo.sensenet.nu:5001/write/b24=")], Returned true).
Proof.
  apply (setPower_twice bridge true projector (set_power projector true) []
           [Http (Get "http://raspberry.sfo.sensenet.nu:5001/write/b24=")] _ true).
  vm_compute. reflexivity.
Defined.

End IRPlusMore.

(** ** More on the Roku driver *)
Module RokuMore.
Import Py DriverRoku Examples MoreExamples Trace.

Section WithDevice.
Variable net : network.
Variable int_of_string : string -> option Z.

Lemma scan_step (branch : element) (rest : list element)
    (result : gmap (option string) Z) (self : t) (tr : list event) :
  (∃ e, scan int_of_string result (branch :: rest) self tr = (self, tr, Raised e))
  ∨ ∃ self1 result1,
      scan int_of_string result (branch :: rest) self tr
      = scan int_of_string result1 rest self1 tr
      ∧ server self1 = server self ∧ apps self1 = apps self
      ∧ (home self1 = home self
         ∨ ∃ txt h, tag branch = "app" ∧ attrib branch !! "type" = Some "menu"
                    ∧ text branch = Some txt ∧ -1 < find "home" (lower txt)
                    ∧ attrib branch !! "id" ≫= int_of_string = Some h
                    ∧ home self1 = Some h)
      ∧ ((result1 = result
          ∧ ¬ (tag branch = "app" ∧ attrib branch !! "type" = Some "appl"))
         ∨ ∃ n, tag branch = "app" ∧ attrib branch !! "type" = Some "appl"
                ∧ attrib branch !! "id" ≫= int_of_string = Some n
                ∧ result1 = <[ text branch := n ]> result).
Proof.
  cbn [scan]. unfold bind, getitem, int, lower_of, modify, ret, raise.
  destruct (String.eqb (tag branch) "app") eqn:Htag;
    [apply String.eqb_eq in Htag | apply String.eqb_neq in Htag]; cbn beta iota.
  2: { right. exists self, result. naive_solver. }
  destruct (attrib branch !! "type") as [ty|] eqn:Hty; cbn beta iota; [|eauto].
  destruct (String.eqb ty "menu") eqn:Hmenu;
    [apply String.eqb_eq in Hmenu; subst ty | apply String.eqb_neq in Hmenu]; cbn beta iota.
  - destruct (text branch) as [txt|] eqn:Htxt; cbn beta iota; [|eauto].
    destruct (-1 <? find "home" (lower txt)) eqn:Hfind; cbn beta iota.
    + apply Z.ltb_lt in Hfind.
      destruct (attrib branch !! "id") as [id|] eqn:Hid; cbn beta iota; [|eauto].
      destruct (int_of_string id) as [h|] eqn:Hint; cbn beta iota; [|eauto].
      right. exists (set_home (Some h) self), result.
      split; [done|]. split; [done|]. split; [done|].
      split.
      { right. exists txt, h. split_and!; try done; by rewrite Hid. }
      left. naive_solver.
    + right. exists self, result. naive_solver.
  - destruct (String.eqb ty "appl") eqn:Happl;
      [apply String.eqb_eq in Happl; subst ty | apply String.eqb_neq in Happl]; cbn beta iota.
    + destruct (attrib branch !! "id") as [id|] eqn:Hid; cbn beta iota; [|eauto].
      destruct (int_of_string id) as [n|] eqn:Hint; cbn beta iota; [|eauto].
      right. exists self, (<[ text branch := n ]> result).
      split; [done|]. split; [done|]. split; [done|]. split; [by left|].
      right. exists n. split_and!; try done; by rewrite Hid.
    + right. exists self, result. naive_solver.
Qed.

(** Reading the list keeps the trace, the server and [self.apps]. *)
Lemma scan_frame (tree : list element) :
  ∀ result self tr self' tr' o,
    scan int_of_string result tree self tr = (self', tr', o) →
    tr' = tr ∧ server self' = server self ∧ apps self' = apps self.
Proof.
  induction tree as [|branch rest IH]; intros result self tr self' tr' o.
  { cbn. by intros [= <- <- <-]. }
  destruct (scan_step branch rest result self tr)
    as [[e ->] | (self1 & result1 & -> & Hsrv & Happs & _)].
  - by intros [= <- <- <-].
  - intros Hrest. apply IH in Hrest as (-> & -> & ->). done.
Qed.

(** The home screen is only ever taken from a menu entry whose text,
    in lower case, occurs in ["home"]. *)
Lemma scan_home (tree : list element) :
  ∀ result self tr self' tr' o,
    scan int_of_string result tree self tr = (self', tr', o) →
    home self' = home self
    ∨ ∃ b txt h, b ∈ tree ∧ tag b = "app" ∧ attrib b !! "type" = Some "menu"
                 ∧ text b = Some txt ∧ -1 < find "home" (lower txt)
                 ∧ attrib b !! "id" ≫= int_of_string = Some h
                 ∧ home self' = Some h.
Proof.
  induction tree as [|branch rest IH]; intros result self tr self' tr' o.
  { cbn. intros [= <- <- <-]. by left. }
  destruct (scan_step branch rest result self tr)
    as [[e ->] | (self1 & result1 & -> & _ & _ & Hhome & _)].
  - intros [= <- <- <-]. by left.
  - intros Hrest. apply IH in Hrest as [Hsame | (b & txt & h & Hb & Hrest)].
    + rewrite Hsame. destruct Hhome as [->|(txt & h & ? & ? & ? & ? & ? & ?)]; [by left|].
      right. exists branch, txt, h. split_and!; try done. by left.
    + right. exists b, txt, h. split; [by right|done].
Qed.

(** What the dict returned by the loop holds. *)
Lemma scan_result (tree : list element) :
  ∀ result self tr self' tr' found,
    scan int_of_string result tree self tr = (self', tr', Returned found) →
    (∀ name id, found !! name = Some id →
       result !! name = Some id
       ∨ ∃ b, b ∈ tree ∧ tag b = "app" ∧ attrib b !! "type" = Some "appl"
              ∧ text b = name ∧ attrib b !! "id" ≫= int_of_string = Some id)
    ∧ (∀ name, is_Some (result !! name) → is_Some (found !! name))
    ∧ (∀ b, b ∈ tree → tag b = "app" → attrib b !! "type" = Some "appl" →
            is_Some (found !! text b)).
Proof.
  induction tree as [|branch rest IH]; intros result self tr self' tr' found.
  { cbn. intros [= <- <- <-]. split_and!; [by left|done|]. intros b Hb. by apply elem_of_nil in Hb. }
  destruct (scan_step branch rest result self tr)
    as [[e ->] | (self1 & result1 & -> & _ & _ & _ & Hres)]; [done|].
  intros Hrest. apply IH in Hrest as (Hsound & Hkeep & Hall).
  destruct Hres as [[-> Hnot] | (n & Htag & Hty & Hid & ->)].
  - split_and!.
    + intros name id Hf. destruct (Hsound name id Hf) as [?|(b & ? & ?)]; [by left|].
      right. exists b. split; [by right|done].
    + done.
    + intros b Hb Htag Hty. apply elem_of_cons in Hb as [->|Hb]; [|by apply Hall].
      destruct Hnot. done.
  - split_and!.
    + intros name id Hf. destruct (Hsound name id Hf) as [Hin|(b & ? & ?)].
      * destruct (decide (text branch = name)) as [<-|Hne].
        -- rewrite lookup_insert_eq in Hin. injection Hin as <-.
           right. exists branch. split_and!; try done. by left.
        -- rewrite lookup_insert_ne in Hin by done. by left.
      * right. exists b. split; [by right|done].
    + intros name Hname. apply Hkeep.
      destruct (decide (text branch = name)) as [<-|Hne].
      * rewrite lookup_insert_eq. eauto.
      * by rewrite lookup_insert_ne.
    + intros b Hb Htag' Hty'. apply elem_of_cons in Hb as [->|Hb]; [|by apply Hall].
      apply Hkeep. rewrite lookup_insert_eq. eauto.
Qed.

Lemma getApps_unfold (self : t) (tr : list event) :
  getApps net int_of_string self tr
  = match content (net tr (Get (server self +:+ "query/apps"))) with
    | Xml doc =>
        if negb (String.eqb (tag (root doc)) "apps")
        then (self, tr ++ [Http (Get (server self +:+ "query/apps"))], Returned ∅)
        else scan int_of_string ∅ (branches doc) self
               (tr ++ [Http (Get (server self +:+ "query/apps"))])
    | _ => (self, tr ++ [Http (Get (server self +:+ "query/apps"))], Raised ParseError)
    end.
Proof.
  unfold getApps, bind, get, send, fromstring, ret, raise.
  destruct (content _) as [|doc|]; try done. by destruct (negb _).
Qed.

Lemma getApps_frame (self self' : t) (tr tr' : list event) o :
  getApps net int_of_string self tr = (self', tr', o) →
  tr' = tr ++ [Http (Get (server self +:+ "query/apps"))]
  ∧ server self' = server self ∧ apps self' = apps self.
Proof.
  rewrite getApps_unfold. destruct (content _) as [|doc|].
  - by intros [= <- <- <-].
  - destruct (negb _); [by intros [= <- <- <-]|]. apply scan_frame.
  - by intros [= <- <- <-].
Qed.

(** X11: when [getApps] returns, every entry of the dict it returns
    comes from an [app] element of type [appl] of a reply whose root is
    [apps], with the element's text as name and its [id] attribute as
    id; and every such element of the reply has its text among the
    names. *)
Theorem getApps_lists_applications (self self' : t) (tr tr' : list event)
    (found : gmap (option string) Z) :
  getApps net int_of_string self tr = (self', tr', Returned found) →
  (∀ name id, found !! name = Some id →
     ∃ doc b,
       content (net tr (Get (server self +:+ "query/apps"))) = Xml doc
       ∧ tag (root doc) = "apps"
       ∧ b ∈ branches doc ∧ tag b = "app" ∧ attrib b !! "type" = Some "appl"
       ∧ text b = name ∧ attrib b !! "id" ≫= int_of_string = Some id)
  ∧ (∀ doc b,
       content (net tr (Get (server self +:+ "query/apps"))) = Xml doc →
       tag (root doc) = "apps" →
       b ∈ branches doc → tag b = "app" → attrib b !! "type" = Some "appl" →
       is_Some (found !! text b)).
Proof.
  rewrite getApps_unfold.
  destruct (content _) as [|doc|] eqn:Hcontent; [done| |done].
  destruct (String.eqb (tag (root doc)) "apps") eqn:Hroot; cbn [negb].
  - apply String.eqb_eq in Hroot. intros Hscan.
    apply scan_result in Hscan as (Hsound & _ & Hall). split.
    + intros name id Hf. destruct (Hsound name id Hf) as [Hempty|(b & Hb)].
      * by rewrite lookup_empty in Hempty.
      * exists doc, b. done.
    + intros doc' b [= <-]. intros _. apply Hall.
  - apply String.eqb_neq in Hroot. intros [= <- <- <-]. split.
    + intros name id Hf. by rewrite lookup_empty in Hf.
    + intros doc' b [= <-]. done.
Qed.

(** X12: however [getApps] ends, the home screen id is left as it was
    or is the [id] of an [app] element of type [menu] whose text, in
    lower case, occurs inside the word [home] (the element's text is
    searched for in ["home"], not the reverse). *)
Theorem getApps_home (self self' : t) (tr tr' : list event) o :
  getApps net int_of_string self tr = (self', tr', o) →
  home self' = home self
  ∨ ∃ doc b txt h,
      content (net tr (Get (server self +:+ "query/apps"))) = Xml doc
      ∧ tag (root doc) = "apps"
      ∧ b ∈ branches doc ∧ tag b = "app" ∧ attrib b !! "type" = Some "menu"
      ∧ text b = Some txt ∧ -1 < find "home" (lower txt)
      ∧ attrib b !! "id" ≫= int_of_string = Some h
      ∧ home self' = Some h.
Proof.
  rewrite getApps_unfold.
  destruct (content _) as [|doc|] eqn:Hcontent;
    [intros [= <- <- <-]; by left | | intros [= <- <- <-]; by left].
  destruct (String.eqb (tag (root doc)) "apps") eqn:Hroot; cbn [negb].
  - apply String.eqb_eq in Hroot. intros Hscan.
    apply scan_home in Hscan as [?|(b & txt & h & Hb)]; [by left|].
    right. exists doc, b, txt, h. done.
  - intros [= <- <- <-]. by left.
Qed.

Lemma startApp_posts (appid : Z) (self : t) (tr : list event) :
  startApp net appid self tr
  = (self, tr ++ [Http (Post (server self +:+ "launch/" +:+ pretty appid))], Returned tt).
Proof. done. Qed.

(** The loop of the ["app"] branch stops at the first name that
    contains the text looked for. *)
Lemma launch_by_name_spec (k : string) (items : list (option string * Z))
    (self : t) (tr : list event) :
  Forall (λ kv, kv.1 ≠ None) items →
  (launch_by_name net k items self tr = (self, tr, Returned tt)
   ∧ ∀ name id, (Some name, id) ∈ items → ¬ (-1 < find (lower name) k))
  ∨ ∃ name id,
      (Some name, id) ∈ items ∧ -1 < find (lower name) k
      ∧ launch_by_name net k items self tr
        = (self, tr ++ [Http (Post (server self +:+ "launch/" +:+ pretty id))], Returned tt).
Proof.
  induction 1 as [|[key id] items Hkey _ IH]; cbn [launch_by_name].
  { left. split; [done|]. intros ? ? Hin. by apply elem_of_nil in Hin. }
  destruct key as [name|]; [|done].
  unfold bind at 1 2. unfold lower_of, ret. cbn beta iota.
  destruct (-1 <? find (lower name) k) eqn:Hfind.
  - apply Z.ltb_lt in Hfind. right. exists name, id.
    split; [by left|]. split; [done|]. apply startApp_posts.
  - apply Z.ltb_ge in Hfind.
    destruct IH as [[-> Hnone] | (name' & id' & Hin & Hlt & ->)].
    + left. split; [done|]. intros name' id' Hin.
      apply elem_of_cons in Hin as [[= -> ->]|Hin]; [lia|by eapply Hnone].
    + right. exists name', id'. split; [by right|done].
Qed.

(** X13: with the key ["app"] in [extras], once [getApps] has returned
    a dict of named applications, [eventExtras] stores that dict in
    [self.apps] and returns; it posts exactly one launch, of an
    application whose name contains the text looked for regardless of
    case, when there is such an application, and posts nothing when
    there is none. *)
Theorem eventExtras_app_launches_match (extras : gmap string string) (v : string)
    (self s1 : t) (tr t1 : list event) (found : gmap (option string) Z) :
  extras !! "app" = Some v →
  getApps net int_of_string self tr = (s1, t1, Returned found) →
  found !! None = None →
  ∃ launched,
    eventExtras net int_of_string extras self tr
    = (set_apps found s1, t1 ++ launched, Returned tt)
    ∧ ((launched = []
        ∧ ∀ name id, found !! Some name = Some id → ¬ (-1 < find (lower name) (lower v)))
       ∨ ∃ name id,
           found !! Some name = Some id
           ∧ -1 < find (lower name) (lower v)
           ∧ launched = [Http (Post (server self +:+ "launch/" +:+ pretty id))]).
Proof.
  intros Happ Hget Hnamed.
  destruct (getApps_frame _ _ _ _ _ Hget) as (_ & Hsrv & _).
  unfold eventExtras, bind. rewrite Hget. unfold modify, contains, getitem, ret.
  rewrite Happ, bool_decide_true by eauto.
  assert (Forall (λ kv : option string * Z, kv.1 ≠ None) (map_to_list found)) as Hkeys.
  { apply Forall_forall. intros [key id] Hin. apply elem_of_map_to_list in Hin.
    cbn. intros ->. congruence. }
  destruct (launch_by_name_spec (lower v) (map_to_list found) (set_apps found s1) t1 Hkeys)
    as [[-> Hnone] | (name & id & Hin & Hlt & ->)].
  - exists []. rewrite app_nil_r. split; [done|]. left. split; [done|].
    intros name id Hf. apply Hnone with id. by apply elem_of_map_to_list.
  - eexists. split; [reflexivity|]. right. exists name, id.
    apply elem_of_map_to_list in Hin. cbn [server set_apps]. by rewrite Hsrv.
Qed.

(** X14: [eventOff] with a known home screen posts one launch of it and
    does not query the device; in every case it keeps the server, and
    posts either nothing or one launch of the home screen the driver
    then knows. *)
Theorem eventOff_launches_only_home (self : t) (tr : list event) :
  (∀ h, home self = Some h →
        eventOff net int_of_string self tr
        = (self, tr ++ [Http (Post (server self +:+ "launch/" +:+ pretty h))], Returned tt))
  ∧ ∃ self' tr' o,
      eventOff net int_of_string self tr = (self', tr ++ tr', o)
      ∧ server self' = server self
      ∧ (posts tr' = []
         ∨ ∃ h, home self' = Some h
                ∧ posts tr' = [server self +:+ "launch/" +:+ pretty h]).
Proof.
  split.
  - intros h Hh. unfold eventOff, bind, get, ret. rewrite Hh.
    rewrite bool_decide_false by done. rewrite Hh. apply startApp_posts.
  - unfold eventOff, bind at 1, get. unfold bind at 1.
    case_bool_decide as Hhome.
    + unfold bind at 1.
      destruct (getApps net int_of_string self tr) as [[s1 t1] o1] eqn:Hget.
      destruct (getApps_frame _ _ _ _ _ Hget) as (-> & Hsrv & _).
      destruct o1 as [found|e].
      * unfold ret, bind. destruct (home s1) as [h|] eqn:Hh.
        -- rewrite startApp_posts, <- app_assoc.
           eexists _, _, _. split; [reflexivity|]. split; [done|].
           right. exists h. rewrite Hsrv. done.
        -- eexists _, _, _. split; [reflexivity|]. split; [done|]. by left.
      * eexists _, _, _. split; [reflexivity|]. split; [done|]. by left.
    + unfold ret, bind. destruct (home self) as [h|] eqn:Hh; [|done].
      rewrite startApp_posts.
      eexists _, _, _. split; [reflexivity|]. split; [done|].
      right. exists h. done.
Qed.

(** X15: sending the text [a] followed by [b] is sending [a] and then
    [b]. *)
Theorem navTextInput_app (zone : option string) (a b : string) (self : t) (tr : list event) :
  navTextInput net zone (a +:+ b) self tr
  = bind (navTextInput net zone a) (λ _, navTextInput net zone b) self tr.
Proof.
  revert tr. induction a as [|l a IH]; intros tr; [done|].
  change (String l a +:+ b) with (String l (a +:+ b)). cbn [navTextInput].
  unfold keypress, bind, get, send, ret. rewrite IH. reflexivity.
Qed.

End WithDevice.

Lemma eventExtras_app_launches_match_witness :
  ∃ launched,
    eventExtras roku_box decimal {[ "app" := "NETFLIX" ]} roku []
    = (roku_listed, [Http (Get "http://roku.sfo.sensenet.nu:8060/query/apps")] ++ launched,
       Returned tt)
    ∧ ((launched = []
        ∧ ∀ name id, ({[ Some "Netflix" := 12 ]} : gmap (option string) Z) !! Some name = Some id →
                     ¬ (-1 < find (lower name) (lower "NETFLIX")))
       ∨ ∃ name id,
           ({[ Some "Netflix" := 12 ]} : gmap (option string) Z) !! Some name = Some id
           ∧ -1 < find (lower name) (lower "NETFLIX")
           ∧ launched = [Http (Post (server roku +:+ "launch/" +:+ pretty id))]).
Proof.
  apply (eventExtras_app_launches_match roku_box decimal {[ "app" := "NETFLIX" ]} "NETFLIX"
           roku (set_home (Some 1) roku) []
           [Http (Get "http://roku.sfo.sensenet.nu:8060/query/apps")]
           {[ Some "Netflix" := 12 ]}).
  - vm_compute. reflexivity.
  - vm_compute. reflexivity.
  - vm_compute. reflexivity.
Defined.

Lemma getApps_lists_applications_witness :
  ∃ doc b,
    content (roku_box [] (Get (server roku +:+ "query/apps"))) = Xml doc
    ∧ tag (root doc) = "apps"
    ∧ b ∈ branches doc ∧ tag b = "app" ∧ attrib b !! "type" = Some "appl"
    ∧ text b = Some "Netflix" ∧ attrib b !! "id" ≫= decimal = Some 12.
Proof.
  eapply (proj1 (getApps_lists_applications roku_box decimal roku (set_home (Some 1) roku) []
                   [Http (Get "http://roku.sfo.sensenet.nu:8060/query/apps")]
                   {[ Some "Netflix" := 12 ]} _)).
  vm_compute. reflexivity.
  Unshelve. vm_compute. reflexivity.
Defined.

Lemma getApps_home_witness :
  home (set_home (Some 1) roku) = home roku
  ∨ ∃ doc b txt h,
      content (roku_box [] (Get (server roku +:+ "query/apps"))) = Xml doc
      ∧ tag (root doc) = "apps"
      ∧ b ∈ branches doc ∧ tag b = "app" ∧ attrib b !! "type" = Some "menu"
      ∧ text b = Some txt ∧ -1 < find "home" (lower txt)
      ∧ attrib b !! "id" ≫= decimal = Some h
      ∧ home (set_home (Some 1) roku) = Some h.
Proof.
  apply (getApps_home roku_box decimal roku (set_home (Some 1) roku) []
           [Http (Get "http://roku.sfo.sensenet.nu:8060/query/apps")]
           (Returned {[ Some "Netflix" := 12 ]})).
  vm_compute. reflexivity.
Defined.

End RokuMore.

(** ** More on the static setup *)
Module SetupMore.
Import SystemSetup SetupChecks.

(** X16: [ZONE_TABLE] follows the rules its comment gives: every zone
    and sub-zone has an audio or a video driver, every virtual zone
    names a default sub-zone that is one of its sub-zones, and every
    driver a zone refers to is declared in [DRIVER_TABLE]. *)
Theorem zones_follow_rules :
  Forall (λ z : string * option string * simple_zone,
            is_Some (z_audio z.2) ∨ is_Some (z_video z.2))
         (concrete_zones ZONE_TABLE)
  ∧ map_Forall (λ _ z, default_declared z = true) ZONE_TABLE
  ∧ Forall (λ ref, is_Some (DRIVER_TABLE !! driver_of ref)) (zone_references ZONE_TABLE).
Proof.
  split_and!.
  - refine (bool_decide_unpack _ _). vm_compute. exact I.
  - refine (bool_decide_unpack _ _). vm_compute. exact I.
  - refine (bool_decide_unpack _ _). vm_compute. exact I.
Qed.

(** X17: for every scene of [SCENE_TABLE] and every zone or sub-zone of
    [ZONE_TABLE] there is a kind of path (audio and video, or audio),
    and among the routes [ROUTING_TABLE] lists for the scene's driver
    and that kind exactly one has the zone's devices in it: the case of
    several matching routes, which the comment asks to avoid, does not
    occur. *)
Theorem every_scene_has_one_route (id : string) (sc : scene)
    (zid : string) (sub : option string) (z : simple_zone) :
  SCENE_TABLE !! id = Some sc →
  (zid, sub, z) ∈ concrete_zones ZONE_TABLE →
  ∃ kind r,
    path_kind sc z = Some kind
    ∧ matching ROUTING_TABLE (driver sc) kind (needed z kind) = [r].
Proof.
  intros Hsc Hz.
  apply elem_of_map_to_list in Hsc.
  vm_compute in Hsc. vm_compute in Hz.
  repeat (apply elem_of_cons in Hsc as [Hsc|Hsc]; [injection Hsc as -> ->|]);
    [| | | | | | |by apply elem_of_nil in Hsc];
    (repeat (apply elem_of_cons in Hz as [Hz|Hz]; [injection Hz as -> -> ->|]);
     [| | | |by apply elem_of_nil in Hz]);
    eexists _, _; (split; [vm_compute; reflexivity|]); vm_compute; reflexivity.
Qed.

Lemma every_scene_has_one_route_witness :
  ∃ kind r,
    path_kind MoreExamples.netflix Examples.tv_subzone = Some kind
    ∧ matching ROUTING_TABLE (driver MoreExamples.netflix) kind
        (needed Examples.tv_subzone kind) = [r].
Proof.
  apply (every_scene_has_one_route "netflix" MoreExamples.netflix
           "zone1" (Some "tv") Examples.tv_subzone).
  - vm_compute. reflexivity.
  - vm_compute. apply list_elem_of_In. vm_compute. tauto.
Defined.

End SetupMore.
